(** * Wave: the RIFF/WAVE header parser and sample reader of
      arduino-pitch_detector/wave.cpp

    The development embeds [_readBytes], [Wave::readHeader] and
    [Wave::readSamples] as executable functions over an explicit file
    state and explicit destination objects, and proves what they do on
    well-formed, malformed and truncated inputs.

    Conventions.
    - A [char] object is a [byte]; [byte.unsigned] is its value as an
      [unsigned char], [int8] its value as an [int8_t].
    - Integers of the program are [Z]; every narrowing conversion the C++
      code performs (to [uint16_t], to [char], to [sampleCnt_t]) is
      written out where it happens.
    - A function returns [None] when the C++ code would store outside the
      destination object (undefined behaviour); everything else is
      [Some] of the return code and the new state. *)

From Stdlib Require Import ZArith Lia List.
From stdpp Require Import base option list.
From coqutil Require Import Byte Word.LittleEndianList.

Local Open Scope Z_scope.

(** ** The byte source *)

(** Arduino's [File], seen through the only member the parser calls:
    [read()] yields the next byte as a non-negative [int], or [-1] once the
    data is used up.  [unread] is what is still to come; [reads] counts the
    calls of [read()] made so far, so that theorems can say how often the
    source was asked. *)
Record File : Type := mkFile { unread : list byte; reads : nat }.

Definition File_read (f : File) : Z * File :=
  match unread f with
  | [] => (-1, mkFile [] (S (reads f)))
  | b :: rest => (byte.unsigned b, mkFile rest (S (reads f)))
  end.

(** A file that has just been opened on the bytes [bs]. *)
Definition open (bs : list byte) : File := mkFile bs 0.

(** ** Integer conversions *)

Definition to_uint16 (z : Z) : Z := z mod 2 ^ 16.

(** [int] to [char]: the low eight bits are kept. *)
Definition to_char (z : Z) : byte := byte.of_Z z.

(** A [char] object read as an [int8_t] (a [sample_t]). *)
Definition int8 (b : byte) : Z :=
  if byte.unsigned b <? 128 then byte.unsigned b else byte.unsigned b - 256.

Definition SCHAR_MIN : Z := -128.

(** ** Packed structures, as their object representation

    [hdr_t], [chunk_t] and [fmtValue_t] are filled by [_readBytes] through a
    [char *]; the fields are then read back from the bytes.  Every field
    sits at its natural offset (no padding arises) and multi-byte fields
    are little-endian, as on the Arduino targets.  The fields [id], [len],
    [hdr] and [fmt] carry the name of their structure in front
    ([hdr_id], [hdr_len], [chunk_hdr], [chunk_fmt]). *)

Definition field (m : list byte) (off n : nat) : list byte :=
  take n (drop off m).

Definition sizeof_hdr : Z := 8.
Definition sizeof_chunk : Z := 12.
Definition sizeof_fmtValue : Z := 16.

Record hdr_t : Type := mk_hdr { hdr_id : list byte; hdr_len : Z }.

Definition hdr_of (m : list byte) : hdr_t :=
  {| hdr_id := field m 0 4; hdr_len := le_combine (field m 4 4) |}.

Record chunk_t : Type := mk_chunk { chunk_hdr : hdr_t; chunk_fmt : list byte }.

Definition chunk_of (m : list byte) : chunk_t :=
  {| chunk_hdr := hdr_of m; chunk_fmt := field m 8 4 |}.

Record fmtValue_t : Type := mk_fmtValue {
  audioFormat : Z;
  numChannels : Z;
  sampleRate : Z;
  byteRate : Z;
  blockAlign : Z;
  bitsPerSample : Z
}.

Definition fmtValue_of (m : list byte) : fmtValue_t :=
  {| audioFormat := le_combine (field m 0 2);
     numChannels := le_combine (field m 2 2);
     sampleRate := le_combine (field m 4 4);
     byteRate := le_combine (field m 8 4);
     blockAlign := le_combine (field m 12 2);
     bitsPerSample := le_combine (field m 14 2) |}.

(** A local object before anything is stored in it.  The parser reads a
    local only after [_readBytes] has filled it completely
    ([_readBytes_fills]), so the choice of the initial bytes is immaterial. *)
Definition uninit (n : nat) : list byte := replicate n Byte.x00.

(** ** Identifiers *)

Inductive idType_t : Type := riff | wave | fmt | data.

Definition _ids (i : idType_t) : list byte :=
  match i with
  | riff => [Byte.x52; Byte.x49; Byte.x46; Byte.x46]
  | wave => [Byte.x57; Byte.x41; Byte.x56; Byte.x45]
  | fmt => [Byte.x66; Byte.x6d; Byte.x74; Byte.x20]
  | data => [Byte.x64; Byte.x61; Byte.x74; Byte.x61]
  end.

(** [memcmp] on the first [n] bytes: zero when they agree, else the
    difference of the first pair that differs. *)
Fixpoint memcmp (a b : list byte) (n : nat) : Z :=
  match n, a, b with
  | S n', x :: a', y :: b' =>
      if byte.unsigned x =? byte.unsigned y then memcmp a' b' n'
      else byte.unsigned x - byte.unsigned y
  | _, _, _ => 0
  end.

(** ** _readBytes *)

(** [*(buf) = c] on the object [m], [buf] pointing at index [p]. *)
Definition store (m : list byte) (p : nat) (c : byte) : option (list byte) :=
  if decide (p < length m)%nat then Some (<[p := c]> m) else None.

(** The loop of [_readBytes] with [n] iterations still to run.  [buf] is
    the running pointer: [None] is [NULL], [Some p] points at index [p] of
    the destination object [m]. *)
Fixpoint _readBytes_loop (n : nat) (f : File) (offset : Z)
    (buf : option nat) (m : list byte) : option (Z * File * list byte) :=
  match n with
  | O => Some (0, f, m)
  | S n' =>
      let '(d, f') := File_read f in
      if d <? 0 then Some (1, f', m)
      else
        match buf with
        | Some p =>
            m' ← store m p (to_char (d + offset));
            _readBytes_loop n' f' offset (Some (S p)) m'
        | None => _readBytes_loop n' f' offset None m
        end
  end.

(** [len] is the value of the [uint16_t] parameter, [data] the pointer
    argument into the object [m]. *)
Definition _readBytes (f : File) (len : Z) (offset : Z)
    (data : option nat) (m : list byte) : option (Z * File * list byte) :=
  _readBytes_loop (Z.to_nat len) f offset data m.

(** ** Wave::readHeader and Wave::readSamples *)

(** [Config::SAMPLE_RATE], from CONFIG_MIDIMIKE_SAMPLE_RATE in config.h. *)
Definition CONFIG_MIDIMIKE_SAMPLE_RATE : Z := 9615.
Definition SAMPLE_RATE : Z := CONFIG_MIDIMIKE_SAMPLE_RATE.

Section Wave.

(** The width in bits of [sampleCnt_t]; its declaration (sample_t.h) is
    not part of the sources in view, so the width is a parameter. *)
Variable sampleCnt_bits : Z.

Definition to_sampleCnt (z : Z) : Z := z mod 2 ^ sampleCnt_bits.

(** [readHeader] is three blocks in a row, each of which returns with its
    error code or falls through to the next; they are given here from the
    last to the first.

    The [data] sub chunk: the last block of [readHeader]. *)
Definition readHeader_data (f : File) (pSampleCnt : Z)
    : option (Z * File * Z) :=
  '(r, f, hdr) ← _readBytes f sizeof_hdr 0 (Some 0%nat) (uninit 8);
  if negb (r =? 0)
     || negb (memcmp (hdr_id (hdr_of hdr)) (_ids data) 4 =? 0)
  then Some (5, f, pSampleCnt)
  else Some (0, f, to_sampleCnt (hdr_len (hdr_of hdr))).

(** The [fmt ] sub chunk: the middle block of [readHeader]. *)
Definition readHeader_fmt (f : File) (pSampleCnt : Z)
    : option (Z * File * Z) :=
  '(r, f, hdr) ← _readBytes f sizeof_hdr 0 (Some 0%nat) (uninit 8);
  if negb (r =? 0)
     || negb (memcmp (hdr_id (hdr_of hdr)) (_ids fmt) 4 =? 0)
  then Some (2, f, pSampleCnt)
  else
    let len := hdr_len (hdr_of hdr) in
    if len <? sizeof_fmtValue then Some (3, f, pSampleCnt)
    else
      '(r, f, fmtValue) ←
        _readBytes f sizeof_fmtValue 0 (Some 0%nat) (uninit 16);
      if negb (r =? 0) then Some (3, f, pSampleCnt)
      else
        '(r, f, _) ←
          _readBytes f (to_uint16 (len - sizeof_fmtValue)) 0 None [];
        if negb (r =? 0) then Some (3, f, pSampleCnt)
        else
          let v := fmtValue_of fmtValue in
          if negb (audioFormat v =? 1)
             || negb (numChannels v =? 1)
             || negb (bitsPerSample v =? 8)
             || negb (sampleRate v =? SAMPLE_RATE)
          then Some (4, f, pSampleCnt)
          else readHeader_data f pSampleCnt.

(** [pSampleCnt] is the content of the object the caller's pointer
    refers to; the third component of the result is its content on
    return. *)
Definition readHeader (f : File) (pSampleCnt : Z)
    : option (Z * File * Z) :=
  '(r, f, chunk) ← _readBytes f sizeof_chunk 0 (Some 0%nat) (uninit 12);
  if negb (r =? 0)
     || negb (memcmp (hdr_id (chunk_hdr (chunk_of chunk))) (_ids riff) 4 =? 0)
     || negb (memcmp (chunk_fmt (chunk_of chunk)) (_ids wave) 4 =? 0)
  then Some (1, f, pSampleCnt)
  else readHeader_fmt f pSampleCnt.

End Wave.

(** [samples] is the caller's buffer; [nrOfSamples] is converted to the
    [uint16_t] parameter of [_readBytes]. *)
Definition readSamples (f : File) (nrOfSamples : Z) (samples : list byte)
    : option (Z * File * list byte) :=
  '(r, f, samples) ←
    _readBytes f (to_uint16 nrOfSamples) SCHAR_MIN (Some 0%nat) samples;
  if negb (r =? 0) then Some (1, f, samples) else Some (0, f, samples).

(** * Vocabulary of the statements *)

(** ** What [_readBytes] leaves in the destination *)

(** The destination after the bytes [bs] went through [_readBytes] with
    the running pointer starting at [buf]. *)
Definition written (offset : Z) (buf : option nat) (bs : list byte)
    (m : list byte) : list byte :=
  match buf with
  | None => m
  | Some p =>
      take p m ++ ((λ b, to_char (byte.unsigned b + offset)) <$> bs)
        ++ drop (p + length bs) m
  end.

(** The destination has room for [k] more bytes. *)
Definition fits (buf : option nat) (k : nat) (m : list byte) : Prop :=
  match buf with
  | None => True
  | Some p => (p + k <= length m)%nat
  end.

(** ** The container on the wire *)

(** A chunk header: four id bytes, then the length, little-endian. *)
Definition hdr_bytes (id : list byte) (len : Z) : list byte :=
  id ++ le_split 4 len.

(** The main chunk: "RIFF", the outer length, "WAVE". *)
Definition chunk_bytes (riffLen : Z) : list byte :=
  hdr_bytes (_ids riff) riffLen ++ _ids wave.

(** The sixteen bytes of a format descriptor. *)
Definition fmtValue_bytes (v : fmtValue_t) : list byte :=
  le_split 2 (audioFormat v) ++ le_split 2 (numChannels v)
  ++ le_split 4 (sampleRate v) ++ le_split 4 (byteRate v)
  ++ le_split 2 (blockAlign v) ++ le_split 2 (bitsPerSample v).

(** The descriptor of the one accepted profile: PCM, mono, 8 bits, at the
    configured rate; byte rate and block alignment are free. *)
Definition profile (br ba : Z) : fmtValue_t :=
  {| audioFormat := 1; numChannels := 1; sampleRate := SAMPLE_RATE;
     byteRate := br; blockAlign := ba; bitsPerSample := 8 |}.

(** Everything up to the first sample: main chunk, [fmt ] chunk of declared
    length [L] with descriptor [v] and trailing bytes [pad], [data] header
    announcing [N] samples. *)
Definition header_bytes (riffLen L : Z) (v : fmtValue_t) (pad : list byte)
    (N : Z) : list byte :=
  chunk_bytes riffLen ++ hdr_bytes (_ids fmt) L ++ fmtValue_bytes v ++ pad
  ++ hdr_bytes (_ids data) N.

(** ** The profile gate and the end of the source *)

(** The four profile checks of the [fmt ] block, taken together. *)
Definition profile_ok (v : fmtValue_t) : bool :=
  (audioFormat v =? 1) && (numChannels v =? 1) && (bitsPerSample v =? 8)
  && (sampleRate v =? SAMPLE_RATE).

(** A descriptor of the accepted profile except for its audio format,
    which is 2. *)
Definition desc_format_2 : list byte :=
  fmtValue_bytes
    {| audioFormat := 2; numChannels := 1; sampleRate := SAMPLE_RATE;
       byteRate := SAMPLE_RATE; blockAlign := 1; bitsPerSample := 8 |}.

(** The number of calls of [read()] after which the source has nothing
    left: the calls made so far and the bytes still to come. *)
Definition budget (f : File) : nat := (reads f + length (unread f))%nat.

(** The source was asked for a byte it did not have: more calls of
    [read()] were made between [f] and [f'] than [f] had bytes. *)
Definition ran_out (f f' : File) : bool := (budget f <? reads f')%nat.

(** Twelve bytes that are not a main chunk: the id reads "RIFX". *)
Definition chunk_RIFX : list byte :=
  hdr_bytes [Byte.x52; Byte.x49; Byte.x46; Byte.x58] 4 ++ _ids wave.

(** ** The read cursor *)

(** [f'] is [f] after some calls of [read()]: the counter did not go
    back, and what is still unread is what was unread with as many bytes
    taken off its front as calls were made (all of it, after a call that
    found nothing). *)
Definition advanced (f f' : File) : Prop :=
  (reads f <= reads f')%nat
  ∧ unread f' = drop (reads f' - reads f) (unread f).

(** The pointer [buf] moved on by [n] slots. *)
Definition ptr_add (buf : option nat) (n : nat) : option nat :=
  (λ p, (p + n)%nat) <$> buf.

(** ** A count beyond sixteen bits *)


(** * Properties *)

(** ** The byte source *)

Lemma byte_unsigned_nonneg (b : byte) : (byte.unsigned b <? 0) = false.
Proof. pose proof (byte.unsigned_range b). lia. Qed.

Lemma File_read_cons (b : byte) (bs : list byte) (r : nat) :
  File_read (mkFile (b :: bs) r) = (byte.unsigned b, mkFile bs (S r)).
Proof. reflexivity. Qed.

Lemma File_read_eof (r : nat) :
  File_read (mkFile [] r) = (-1, mkFile [] (S r)).
Proof. reflexivity. Qed.

(** ** What [_readBytes] leaves in the destination *)

Lemma written_nil offset buf m : written offset buf [] m = m.
Proof.
  destruct buf as [p|]; [|done]. unfold written; simpl.
  by rewrite Nat.add_0_r, take_drop.
Qed.

Lemma written_step offset p b bs m :
  (p < length m)%nat →
  written offset (Some (S p)) bs (<[p := to_char (byte.unsigned b + offset)]> m)
  = written offset (Some p) (b :: bs) m.
Proof.
  intros Hp. unfold written.
  rewrite take_insert_lt by lia.
  rewrite drop_insert_lt by lia.
  destruct (lookup_lt_is_Some_2 m p Hp) as [x Hx].
  rewrite (take_S_r m p x Hx).
  rewrite insert_app_r_alt by (rewrite length_take; lia).
  rewrite length_take, Nat.min_l, Nat.sub_diag by lia. simpl.
  rewrite <- app_assoc. simpl.
  by rewrite Nat.add_succ_r.
Qed.

Lemma length_written offset buf bs m :
  fits buf (length bs) m → length (written offset buf bs m) = length m.
Proof.
  destruct buf as [p|]; simpl; [|done]. intros Hp.
  rewrite !length_app, length_take, length_fmap, length_drop. lia.
Qed.

(** All requested bytes are there: the loop runs to its end. *)
Lemma _readBytes_loop_ok (n : nat) : ∀ f offset buf m,
  (n <= length (unread f))%nat →
  fits buf n m →
  _readBytes_loop n f offset buf m
  = Some (0, mkFile (drop n (unread f)) (reads f + n),
          written offset buf (take n (unread f)) m).
Proof.
  induction n as [|n IH]; intros [bs r] offset buf m Hn Hfit; simpl in *.
  - by rewrite written_nil, Nat.add_0_r.
  - destruct bs as [|b bs]; simpl in Hn; [lia|].
    rewrite File_read_cons, byte_unsigned_nonneg.
    destruct buf as [p|]; simpl in Hfit.
    + unfold store. rewrite decide_True by lia. cbn [mbind option_bind].
      rewrite IH; cbn [unread reads];
        [|lia|unfold fits; rewrite length_insert; lia].
      rewrite written_step by lia.
      by rewrite Nat.add_succ_comm.
    + rewrite IH; cbn [unread reads]; [|lia|done].
      by rewrite Nat.add_succ_comm.
Qed.

(** The source runs dry first: the loop stops at the read that reports it. *)
Lemma _readBytes_loop_eof (n : nat) : ∀ f offset buf m,
  (length (unread f) < n)%nat →
  fits buf (length (unread f)) m →
  _readBytes_loop n f offset buf m
  = Some (1, mkFile [] (S (reads f + length (unread f))),
          written offset buf (unread f) m).
Proof.
  induction n as [|n IH]; intros [bs r] offset buf m Hn Hfit;
    cbn [unread reads] in *; [lia|].
  cbn [_readBytes_loop].
  destruct bs as [|b bs]; cbn [length] in *.
  - rewrite File_read_eof. cbn. by rewrite written_nil, Nat.add_0_r.
  - rewrite File_read_cons, byte_unsigned_nonneg.
    destruct buf as [p|]; cbn [fits] in Hfit.
    + unfold store. rewrite decide_True by lia. cbn [mbind option_bind].
      rewrite IH; cbn [unread reads];
        [|lia|unfold fits; rewrite length_insert; lia].
      rewrite written_step by lia.
      by rewrite Nat.add_succ_comm, Nat.add_succ_r.
    + rewrite IH; cbn [unread reads]; [|lia|done].
      by rewrite Nat.add_succ_comm, Nat.add_succ_r.
Qed.

(** ** [_readBytes] on the three ways it is called *)

Lemma fmap_to_char_0 (bs : list byte) :
  ((λ b, to_char (byte.unsigned b + 0)) <$> bs) = bs.
Proof.
  induction bs as [|b bs IH]; [done|]. cbn [fmap list_fmap].
  unfold to_char at 1. rewrite Z.add_0_r, byte.of_Z_unsigned. f_equal. exact IH.
Qed.

(** Reading a whole object with offset 0 leaves exactly the bytes of the
    file in it, whatever it held before. *)
Lemma _readBytes_fills (bs rest : list byte) (r : nat) (len : Z)
    (m : list byte) :
  Z.to_nat len = length bs →
  length m = length bs →
  _readBytes (mkFile (bs ++ rest) r) len 0 (Some 0%nat) m
  = Some (0, mkFile rest (r + length bs), bs).
Proof.
  intros Hlen Hm. unfold _readBytes. rewrite Hlen.
  rewrite _readBytes_loop_ok; cbn [unread reads fits].
  - rewrite take_app_length, drop_app_length. unfold written.
    rewrite fmap_to_char_0, take_0, Nat.add_0_l.
    rewrite drop_ge by (rewrite Hm; done).
    by rewrite app_nil_r.
  - rewrite length_app. lia.
  - lia.
Qed.

(** Skipping: a null destination only advances the file. *)
Lemma _readBytes_skips (bs rest : list byte) (r : nat) (len : Z)
    (m : list byte) :
  Z.to_nat len = length bs →
  _readBytes (mkFile (bs ++ rest) r) len 0 None m
  = Some (0, mkFile rest (r + length bs), m).
Proof.
  intros Hlen. unfold _readBytes. rewrite Hlen.
  rewrite _readBytes_loop_ok; cbn [unread reads fits written];
    [|rewrite length_app; lia|done].
  by rewrite drop_app_length.
Qed.

(** Too few bytes left: the call fails with the file used up, after one
    read more than there were bytes. *)
Lemma _readBytes_short (f : File) (len offset : Z) (data : option nat)
    (m : list byte) :
  (length (unread f) < Z.to_nat len)%nat →
  fits data (length (unread f)) m →
  _readBytes f len offset data m
  = Some (1, mkFile [] (S (reads f + length (unread f))),
          written offset data (unread f) m).
Proof. intros Hlen Hfit. unfold _readBytes. by apply _readBytes_loop_eof. Qed.

(** [_readBytes] returns 0 or 1, and never stores outside a destination
    that has room for [len] bytes. *)
Lemma _readBytes_total (f : File) (len offset : Z) (data : option nat)
    (m : list byte) :
  fits data (Z.to_nat len) m →
  ∃ r f' m', _readBytes f len offset data m = Some (r, f', m')
             ∧ (r = 0 ∨ r = 1) ∧ length m' = length m
             ∧ (r = 0 → (Z.to_nat len <= length (unread f))%nat
                        ∧ unread f' = drop (Z.to_nat len) (unread f)
                        ∧ reads f' = (reads f + Z.to_nat len)%nat
                        ∧ m' = written offset data
                                 (take (Z.to_nat len) (unread f)) m)
             ∧ (r = 1 → (length (unread f) < Z.to_nat len)%nat
                        ∧ unread f' = []
                        ∧ reads f' = S (reads f + length (unread f))
                        ∧ m' = written offset data (unread f) m).
Proof.
  intros Hfit.
  destruct (decide (Z.to_nat len <= length (unread f))%nat) as [Hle|Hgt].
  - eexists _, _, _. split; [by apply _readBytes_loop_ok|].
    split; [by left|]. split.
    + apply length_written. rewrite length_take, Nat.min_l by done. done.
    + split; [done|lia].
  - assert (fits data (length (unread f)) m) as Hfit'.
    { destruct data as [p|]; [|done]. cbn [fits] in *. lia. }
    eexists _, _, _. split; [apply _readBytes_short; [lia|done]|].
    split; [by right|]. split; [by apply length_written|].
    split; [lia|]. intros _. split; [lia|done].
Qed.

(** ** Reading the fields back *)

Lemma length_hdr_bytes (id : list byte) (len : Z) :
  length id = 4%nat → length (hdr_bytes id len) = 8%nat.
Proof.
  intros Hid. unfold hdr_bytes. by rewrite length_app, length_le_split, Hid.
Qed.

Lemma length_chunk_bytes (riffLen : Z) : length (chunk_bytes riffLen) = 12%nat.
Proof. reflexivity. Qed.

Lemma length_fmtValue_bytes (v : fmtValue_t) :
  length (fmtValue_bytes v) = 16%nat.
Proof. reflexivity. Qed.

Lemma hdr_of_hdr_bytes (id : list byte) (len : Z) :
  length id = 4%nat →
  hdr_of (hdr_bytes id len) = {| hdr_id := id; hdr_len := len mod 2 ^ 32 |}.
Proof.
  intros Hid. unfold hdr_of, hdr_bytes, field. f_equal.
  - by rewrite drop_0, take_app_length'.
  - rewrite drop_app_length' by done.
    rewrite take_ge by (by rewrite length_le_split).
    by rewrite le_combine_split.
Qed.

Lemma chunk_of_chunk_bytes (riffLen : Z) :
  hdr_id (chunk_hdr (chunk_of (chunk_bytes riffLen))) = _ids riff
  ∧ chunk_fmt (chunk_of (chunk_bytes riffLen)) = _ids wave.
Proof. split; reflexivity. Qed.

Lemma fmtValue_of_fmtValue_bytes (v : fmtValue_t) :
  fmtValue_of (fmtValue_bytes v)
  = {| audioFormat := audioFormat v mod 2 ^ 16;
       numChannels := numChannels v mod 2 ^ 16;
       sampleRate := sampleRate v mod 2 ^ 32;
       byteRate := byteRate v mod 2 ^ 32;
       blockAlign := blockAlign v mod 2 ^ 16;
       bitsPerSample := bitsPerSample v mod 2 ^ 16 |}.
Proof.
  unfold fmtValue_of. f_equal.
  - change (field (fmtValue_bytes v) 0 2) with (le_split 2 (audioFormat v)).
    apply le_combine_split.
  - change (field (fmtValue_bytes v) 2 2) with (le_split 2 (numChannels v)).
    apply le_combine_split.
  - change (field (fmtValue_bytes v) 4 4) with (le_split 4 (sampleRate v)).
    apply le_combine_split.
  - change (field (fmtValue_bytes v) 8 4) with (le_split 4 (byteRate v)).
    apply le_combine_split.
  - change (field (fmtValue_bytes v) 12 2) with (le_split 2 (blockAlign v)).
    apply le_combine_split.
  - change (field (fmtValue_bytes v) 14 2) with (le_split 2 (bitsPerSample v)).
    apply le_combine_split.
Qed.

Lemma fmtValue_of_profile (br ba : Z) :
  let v := fmtValue_of (fmtValue_bytes (profile br ba)) in
  audioFormat v = 1 ∧ numChannels v = 1 ∧ bitsPerSample v = 8
  ∧ sampleRate v = SAMPLE_RATE.
Proof. intros v. subst v. rewrite fmtValue_of_fmtValue_bytes. by cbn. Qed.

Lemma memcmp_refl (a : list byte) (n : nat) : memcmp a a n = 0.
Proof.
  revert a. induction n as [|n IH]; intros [|x a]; cbn [memcmp]; try done.
  by rewrite Z.eqb_refl.
Qed.

(** On objects of four bytes [memcmp] is zero exactly for equal contents. *)
Lemma memcmp_4_eq (a b : list byte) :
  length a = 4%nat → length b = 4%nat → memcmp a b 4 = 0 ↔ a = b.
Proof.
  intros Ha Hb. split; [|intros ->; apply memcmp_refl].
  destruct a as [|a0 [|a1 [|a2 [|a3 [|]]]]]; try done.
  destruct b as [|b0 [|b1 [|b2 [|b3 [|]]]]]; try done.
  cbn [memcmp].
  repeat match goal with
  | |- context [byte.unsigned ?x =? byte.unsigned ?y] =>
      destruct (Z.eqb_spec (byte.unsigned x) (byte.unsigned y)) as [E|E];
        [apply byte.unsigned_inj in E; subst x|lia]
  end.
  done.
Qed.

(** ** The three blocks of [readHeader], one step at a time *)

Lemma profile_ok_spec (v : fmtValue_t) :
  profile_ok v = true
  ↔ audioFormat v = 1 ∧ numChannels v = 1 ∧ bitsPerSample v = 8
    ∧ sampleRate v = SAMPLE_RATE.
Proof. unfold profile_ok. rewrite !andb_true_iff, !Z.eqb_eq. tauto. Qed.

Lemma profile_gate (v : fmtValue_t) :
  negb (audioFormat v =? 1) || negb (numChannels v =? 1)
  || negb (bitsPerSample v =? 8) || negb (sampleRate v =? SAMPLE_RATE)
  = negb (profile_ok v).
Proof.
  unfold profile_ok.
  by destruct (audioFormat v =? 1), (numChannels v =? 1),
    (bitsPerSample v =? 8), (sampleRate v =? SAMPLE_RATE).
Qed.

Section Blocks.

Variable W : Z.
Implicit Types (f : File) (c : Z) (r : nat).

(** *** The [data] block *)

Lemma readHeader_data_short f c :
  (length (unread f) < 8)%nat →
  readHeader_data W f c
  = Some (5, mkFile [] (S (reads f + length (unread f))), c).
Proof.
  intros Hlen. unfold readHeader_data.
  rewrite _readBytes_short; [done|done|].
  unfold fits, uninit. rewrite length_replicate. lia.
Qed.

Lemma readHeader_data_read (hb rest : list byte) r c :
  length hb = 8%nat →
  readHeader_data W (mkFile (hb ++ rest) r) c
  = if memcmp (hdr_id (hdr_of hb)) (_ids data) 4 =? 0
    then Some (0, mkFile rest (r + 8), to_sampleCnt W (hdr_len (hdr_of hb)))
    else Some (5, mkFile rest (r + 8), c).
Proof.
  intros Hhb. unfold readHeader_data.
  rewrite _readBytes_fills by (by rewrite ?length_replicate, Hhb).
  cbn [mbind option_bind]. rewrite Hhb. cbn [Z.eqb negb orb].
  by destruct (memcmp _ _ _ =? 0).
Qed.

(** *** The [fmt ] block *)

Lemma readHeader_fmt_short f c :
  (length (unread f) < 8)%nat →
  readHeader_fmt W f c
  = Some (2, mkFile [] (S (reads f + length (unread f))), c).
Proof.
  intros Hlen. unfold readHeader_fmt.
  rewrite _readBytes_short; [done|done|].
  unfold fits, uninit. rewrite length_replicate. lia.
Qed.

Lemma readHeader_fmt_id (hb g : list byte) r c :
  length hb = 8%nat →
  memcmp (hdr_id (hdr_of hb)) (_ids fmt) 4 ≠ 0 →
  readHeader_fmt W (mkFile (hb ++ g) r) c = Some (2, mkFile g (r + 8), c).
Proof.
  intros Hhb Hid. unfold readHeader_fmt.
  rewrite _readBytes_fills by (by rewrite ?length_replicate, Hhb).
  cbn [mbind option_bind]. rewrite Hhb. cbn [Z.eqb negb orb].
  by destruct (Z.eqb_spec (memcmp (hdr_id (hdr_of hb)) (_ids fmt) 4) 0).
Qed.

Lemma readHeader_fmt_len (hb g : list byte) r c :
  length hb = 8%nat →
  memcmp (hdr_id (hdr_of hb)) (_ids fmt) 4 = 0 →
  hdr_len (hdr_of hb) < 16 →
  readHeader_fmt W (mkFile (hb ++ g) r) c = Some (3, mkFile g (r + 8), c).
Proof.
  intros Hhb Hid Hlen. unfold readHeader_fmt.
  rewrite _readBytes_fills by (by rewrite ?length_replicate, Hhb).
  cbn [mbind option_bind]. rewrite Hhb, Hid. cbn [Z.eqb negb orb].
  unfold sizeof_fmtValue.
  by destruct (Z.ltb_spec (hdr_len (hdr_of hb)) 16); [|lia].
Qed.

(** The descriptor does not arrive in full. *)
Lemma readHeader_fmt_value_short (hb g : list byte) r c :
  length hb = 8%nat →
  memcmp (hdr_id (hdr_of hb)) (_ids fmt) 4 = 0 →
  16 <= hdr_len (hdr_of hb) →
  (length g < 16)%nat →
  readHeader_fmt W (mkFile (hb ++ g) r) c
  = Some (3, mkFile [] (S (r + 8 + length g)), c).
Proof.
  intros Hhb Hid Hlen Hg. unfold readHeader_fmt.
  rewrite _readBytes_fills by (by rewrite ?length_replicate, Hhb).
  cbn [mbind option_bind]. rewrite Hhb, Hid. cbn [Z.eqb negb orb].
  unfold sizeof_fmtValue.
  destruct (Z.ltb_spec (hdr_len (hdr_of hb)) 16); [lia|].
  rewrite _readBytes_short; cbn [unread reads];
    [done|done|unfold fits, uninit; rewrite length_replicate; lia].
Qed.

(** The descriptor arrives, the trailing bytes do not. *)
Lemma readHeader_fmt_pad_short (hb desc g : list byte) r c :
  length hb = 8%nat →
  memcmp (hdr_id (hdr_of hb)) (_ids fmt) 4 = 0 →
  16 <= hdr_len (hdr_of hb) →
  length desc = 16%nat →
  (length g < Z.to_nat (to_uint16 (hdr_len (hdr_of hb) - 16)))%nat →
  readHeader_fmt W (mkFile (hb ++ desc ++ g) r) c
  = Some (3, mkFile [] (S (r + 8 + 16 + length g)), c).
Proof.
  intros Hhb Hid Hlen Hdesc Hg. unfold readHeader_fmt.
  rewrite _readBytes_fills by (by rewrite ?length_replicate, Hhb).
  cbn [mbind option_bind]. rewrite Hhb, Hid. cbn [Z.eqb negb orb].
  unfold sizeof_fmtValue.
  destruct (Z.ltb_spec (hdr_len (hdr_of hb)) 16); [lia|].
  rewrite _readBytes_fills by (by rewrite ?length_replicate, Hdesc).
  cbn [mbind option_bind]. rewrite Hdesc. cbn [Z.eqb negb].
  rewrite _readBytes_short; cbn [unread reads fits]; done.
Qed.

(** Descriptor and trailing bytes arrive: the profile gate decides. *)
Lemma readHeader_fmt_read (hb desc pad g : list byte) r c :
  length hb = 8%nat →
  memcmp (hdr_id (hdr_of hb)) (_ids fmt) 4 = 0 →
  16 <= hdr_len (hdr_of hb) →
  length desc = 16%nat →
  length pad = Z.to_nat (to_uint16 (hdr_len (hdr_of hb) - 16)) →
  readHeader_fmt W (mkFile (hb ++ desc ++ pad ++ g) r) c
  = if profile_ok (fmtValue_of desc)
    then readHeader_data W (mkFile g (r + 8 + 16 + length pad)) c
    else Some (4, mkFile g (r + 8 + 16 + length pad), c).
Proof.
  intros Hhb Hid Hlen Hdesc Hpad. unfold readHeader_fmt.
  rewrite _readBytes_fills by (by rewrite ?length_replicate, Hhb).
  cbn [mbind option_bind]. rewrite Hhb, Hid. cbn [Z.eqb negb orb].
  unfold sizeof_fmtValue.
  destruct (Z.ltb_spec (hdr_len (hdr_of hb)) 16); [lia|].
  rewrite _readBytes_fills by (by rewrite ?length_replicate, Hdesc).
  cbn [mbind option_bind]. rewrite Hdesc. cbn [Z.eqb negb].
  rewrite _readBytes_skips by done.
  cbn [mbind option_bind Z.eqb negb].
  rewrite profile_gate. by destruct (profile_ok _).
Qed.

(** *** The main chunk *)

Lemma readHeader_short f c :
  (length (unread f) < 12)%nat →
  readHeader W f c
  = Some (1, mkFile [] (S (reads f + length (unread f))), c).
Proof.
  intros Hlen. unfold readHeader.
  rewrite _readBytes_short; [done|done|].
  unfold fits, uninit. rewrite length_replicate. lia.
Qed.

Lemma readHeader_read (cb g : list byte) r c :
  length cb = 12%nat →
  readHeader W (mkFile (cb ++ g) r) c
  = if (memcmp (hdr_id (chunk_hdr (chunk_of cb))) (_ids riff) 4 =? 0)
       && (memcmp (chunk_fmt (chunk_of cb)) (_ids wave) 4 =? 0)
    then readHeader_fmt W (mkFile g (r + 12)) c
    else Some (1, mkFile g (r + 12), c).
Proof.
  intros Hcb. unfold readHeader.
  rewrite _readBytes_fills by (by rewrite ?length_replicate, Hcb).
  cbn [mbind option_bind]. rewrite Hcb. cbn [Z.eqb negb orb].
  by destruct (memcmp _ _ _ =? 0), (memcmp _ _ _ =? 0).
Qed.

End Blocks.

(** ** The blocks on well-formed chunks *)

Section Chunks.

Variable W : Z.
Implicit Types (f : File) (c : Z) (r : nat).

Lemma readHeader_chunk (riffLen : Z) (g : list byte) r c :
  readHeader W (mkFile (chunk_bytes riffLen ++ g) r) c
  = readHeader_fmt W (mkFile g (r + 12)) c.
Proof.
  rewrite readHeader_read by apply length_chunk_bytes.
  destruct (chunk_of_chunk_bytes riffLen) as [-> ->].
  by rewrite !memcmp_refl.
Qed.

Lemma readHeader_fmt_chunk (L : Z) (desc pad g : list byte) r c :
  16 <= L < 2 ^ 32 →
  length desc = 16%nat →
  length pad = Z.to_nat (to_uint16 (L - 16)) →
  readHeader_fmt W (mkFile (hdr_bytes (_ids fmt) L ++ desc ++ pad ++ g) r) c
  = if profile_ok (fmtValue_of desc)
    then readHeader_data W (mkFile g (r + 8 + 16 + length pad)) c
    else Some (4, mkFile g (r + 8 + 16 + length pad), c).
Proof.
  intros HL Hdesc Hpad.
  apply readHeader_fmt_read; rewrite ?hdr_of_hdr_bytes by done;
    cbn [hdr_id hdr_len]; rewrite ?Z.mod_small by lia;
    try done; lia.
Qed.

Lemma readHeader_data_chunk (N : Z) (rest : list byte) r c :
  0 <= N < 2 ^ 32 →
  readHeader_data W (mkFile (hdr_bytes (_ids data) N ++ rest) r) c
  = Some (0, mkFile rest (r + 8), to_sampleCnt W N).
Proof.
  intros HN. rewrite readHeader_data_read by done.
  rewrite hdr_of_hdr_bytes by done. cbn [hdr_id hdr_len].
  by rewrite memcmp_refl, Z.mod_small by lia.
Qed.

(** A container of the accepted profile is read up to its first sample.
    The trailing bytes of the [fmt ] chunk are counted by the [uint16_t]
    length of [_readBytes]: [pad] has to be as long as that. *)
Lemma readHeader_accepts (riffLen L br ba : Z) (pad : list byte) (N : Z)
    (rest : list byte) r c :
  16 <= L < 2 ^ 32 →
  length pad = Z.to_nat (to_uint16 (L - 16)) →
  0 <= N < 2 ^ 32 →
  readHeader W
    (mkFile (header_bytes riffLen L (profile br ba) pad N ++ rest) r) c
  = Some (0, mkFile rest (r + 44 + length pad), to_sampleCnt W N).
Proof.
  intros HL Hpad HN. unfold header_bytes. rewrite <- !app_assoc.
  rewrite readHeader_chunk, readHeader_fmt_chunk by done.
  replace (profile_ok (fmtValue_of (fmtValue_bytes (profile br ba))))
    with true
    by (symmetry; apply profile_ok_spec, fmtValue_of_profile).
  rewrite readHeader_data_chunk by done.
  by replace (r + 12 + 8 + 16 + length pad + 8)%nat
    with (r + 44 + length pad)%nat by lia.
Qed.

End Chunks.

(** * The header parser on whole containers *)

(** ** The container of the end-to-end scenario *)

(** "RIFF" + len + "WAVE" + "fmt " + 16 + {1, 1, rate, br, ba, 8} + "data" +
    3 + {0, 128, 255}: the header yields 3 samples, and reading them
    yields -128, 0 and 127. *)
Example wave_end_to_end :
  readHeader 16
    (open (header_bytes 39 16 (profile SAMPLE_RATE 1) [] 3
           ++ [Byte.x00; Byte.x80; Byte.xff])) 0
  = Some (0, mkFile [Byte.x00; Byte.x80; Byte.xff] 44, 3)
  ∧ match readSamples (mkFile [Byte.x00; Byte.x80; Byte.xff] 44) 3 (uninit 3)
    with
    | Some (r, f, samples) => Some (r, f, map int8 samples)
    | None => None
    end
    = Some (0, mkFile [] 47, [-128; 0; 127]).
Proof. split; by vm_compute. Qed.

(** A [fmt ] chunk that declares fewer than 16 bytes is refused with 3
    before anything of it is read. *)
Lemma readHeader_fmt_too_short (W riffLen L : Z) (g : list byte) (r : nat)
    (c : Z) :
  0 <= L < 16 →
  readHeader W (mkFile (chunk_bytes riffLen ++ hdr_bytes (_ids fmt) L ++ g) r) c
  = Some (3, mkFile g (r + 12 + 8), c).
Proof.
  intros HL. rewrite readHeader_chunk.
  apply readHeader_fmt_len; rewrite ?hdr_of_hdr_bytes by done;
    cbn [hdr_id hdr_len]; rewrite ?Z.mod_small by lia; try done; lia.
Qed.

(** ** A [fmt ] chunk longer than 65551 bytes *)

(** C1.  A container of the accepted profile whose [fmt ] chunk declares
    65552 bytes (the descriptor and 65536 trailing bytes, here zeros) is not
    read to its first sample: [hdr.len - sizeof(fmtValue)] is 65536, the
    [uint16_t] parameter of [_readBytes] receives 0, no trailing byte is
    skipped, and the first eight trailing bytes are taken for the [data]
    header.  [readHeader] returns 5 after 44 reads and leaves the sample
    count as it was. *)
Theorem readHeader_long_fmt_rejected (W br ba : Z) (rest : list byte) (c : Z) :
  readHeader W
    (open (header_bytes 0 65552 (profile br ba)
             (replicate (Z.to_nat 65536) Byte.x00) 3 ++ rest)) c
  = Some (5,
          mkFile (replicate (Z.to_nat 65528) Byte.x00
                  ++ hdr_bytes (_ids data) 3 ++ rest) 44,
          c).
Proof.
  unfold open, header_bytes. rewrite <- !app_assoc.
  rewrite readHeader_chunk.
  replace (Z.to_nat 65536) with (8 + Z.to_nat 65528)%nat by lia.
  rewrite replicate_add, <- app_assoc.
  set (g := replicate 8 Byte.x00 ++ _).
  etrans;
    [apply (readHeader_fmt_chunk W 65552 (fmtValue_bytes (profile br ba)) [] g);
     done|].
  replace (profile_ok (fmtValue_of (fmtValue_bytes (profile br ba))))
    with true
    by (symmetry; apply profile_ok_spec, fmtValue_of_profile).
  subst g. rewrite readHeader_data_read by done.
  reflexivity.
Qed.

(** C5.  With a declared length of 65554 the [fmt ] chunk carries 65538
    trailing bytes (here all 255); [readHeader] discards two of them, the
    [uint16_t] value of 65538, reads the next eight as the [data] header and
    returns 5 after 46 reads. *)
Theorem readHeader_fmt_trailing_not_discarded (W br ba : Z)
    (rest : list byte) (c : Z) :
  readHeader W
    (open (header_bytes 0 65554 (profile br ba)
             (replicate (Z.to_nat 65538) Byte.xff) 3 ++ rest)) c
  = Some (5,
          mkFile (replicate (Z.to_nat 65528) Byte.xff
                  ++ hdr_bytes (_ids data) 3 ++ rest) 46,
          c).
Proof.
  unfold open, header_bytes. rewrite <- !app_assoc.
  rewrite readHeader_chunk.
  replace (Z.to_nat 65538) with (2 + (8 + Z.to_nat 65528))%nat by lia.
  rewrite !replicate_add, <- !app_assoc.
  rewrite (readHeader_fmt_chunk W 65554 _ (replicate 2 Byte.xff))
    by (done || apply length_fmtValue_bytes).
  replace (profile_ok (fmtValue_of (fmtValue_bytes (profile br ba))))
    with true
    by (symmetry; apply profile_ok_spec, fmtValue_of_profile).
  rewrite readHeader_data_read by done.
  reflexivity.
Qed.

(** C6.  A [fmt ] chunk header declaring 65552 bytes, the descriptor, and
    then at once a [data] header: [readHeader] examines that header after
    the descriptor without discarding a single byte (44 reads in all) and
    returns 0, although 65536 bytes were to be discarded first.  The number
    of bytes skipped is [(declaredLength - 16) mod 2 ^ 16]. *)
Theorem readHeader_fmt_skip_is_16_bit (W br ba N : Z) (rest : list byte)
    (c : Z) :
  0 <= N < 2 ^ 32 →
  readHeader W
    (open (header_bytes 0 65552 (profile br ba) [] N ++ rest)) c
  = Some (0, mkFile rest 44, to_sampleCnt W N).
Proof. intros HN. by apply (readHeader_accepts W 0 65552). Qed.

Lemma readHeader_fmt_skip_is_16_bit_witness :
  0 <= 3 < 2 ^ 32
  ∧ readHeader 16
      (open (header_bytes 0 65552 (profile 9615 1) [] 3
             ++ [Byte.x00; Byte.x80; Byte.xff])) 0
    = Some (0, mkFile [Byte.x00; Byte.x80; Byte.xff] 44, to_sampleCnt 16 3).
Proof.
  split; [lia|].
  apply (readHeader_fmt_skip_is_16_bit 16 9615 1 3); lia.
Defined.

(** * Reading samples *)

(** ** Slots of the destination, one by one *)

Lemma written_lookup_in offset p (bs m : list byte) i b :
  fits (Some p) (length bs) m →
  bs !! i = Some b →
  written offset (Some p) bs m !! (p + i)%nat
  = Some (to_char (byte.unsigned b + offset)).
Proof.
  intros Hfit Hb. cbn [fits] in Hfit. unfold written.
  pose proof (lookup_lt_Some _ _ _ Hb) as Hi.
  rewrite lookup_app_r by (rewrite length_take; lia).
  rewrite length_take, Nat.min_l by lia.
  replace (p + i - p)%nat with i by lia.
  rewrite lookup_app_l by (by rewrite length_fmap).
  by rewrite list_lookup_fmap, Hb.
Qed.

Lemma written_lookup_out offset p (bs m : list byte) j :
  fits (Some p) (length bs) m →
  (j < p ∨ p + length bs <= j)%nat →
  written offset (Some p) bs m !! j = m !! j.
Proof.
  intros Hfit Hj. cbn [fits] in Hfit. unfold written.
  destruct Hj as [Hj|Hj].
  - rewrite lookup_app_l by (rewrite length_take; lia).
    by rewrite lookup_take_lt.
  - rewrite lookup_app_r by (rewrite length_take; lia).
    rewrite length_take, Nat.min_l by lia.
    rewrite lookup_app_r by (rewrite length_fmap; lia).
    rewrite length_fmap, lookup_drop. f_equal. lia.
Qed.

(** ** The bias *)

(** Adding [SCHAR_MIN] and keeping eight bits turns the unsigned byte
    [b] into the signed sample [b - 128]. *)
Lemma int8_bias (b : byte) :
  int8 (to_char (byte.unsigned b + SCHAR_MIN)) = byte.unsigned b - 128.
Proof. destruct b; vm_compute; reflexivity. Qed.



(** ** [readSamples] *)

Lemma to_uint16_small (z : Z) : 0 <= z < 2 ^ 16 → to_uint16 z = z.
Proof. intros Hz. unfold to_uint16. by rewrite Z.mod_small. Qed.







(** C9.  With a count of 0 neither [_readBytes] nor [readSamples] calls
    [read()] or stores anything: both return 0 with the file (its read
    counter included) and the destination exactly as they were, also on a
    source that is used up and whatever the destination is. *)
Theorem readSamples_zero (f : File) (offset : Z) (data : option nat)
    (m samples : list byte) :
  _readBytes f 0 offset data m = Some (0, f, m)
  ∧ readSamples f 0 samples = Some (0, f, samples)
  ∧ readSamples (mkFile [] (reads f)) 0 samples
    = Some (0, mkFile [] (reads f), samples).
Proof. repeat split. Qed.

(** C10.  When the source delivers [k] bytes and then reports the end of
    the data, with [k] less than the requested length, [_readBytes] with a
    destination returns 1 having stored byte [i] plus the offset, cut to
    eight bits, in slot [i] for every [i < k], in the order of delivery; all
    other slots keep their content.  For [readSamples] the stored value
    read as a sample is the byte minus 128. *)
Theorem readBytes_partial_prefix (f : File) (len offset : Z) (p : nat)
    (m : list byte) :
  (length (unread f) < Z.to_nat len)%nat →
  (p + length (unread f) <= length m)%nat →
  ∃ m',
    _readBytes f len offset (Some p) m
    = Some (1, mkFile [] (S (reads f + length (unread f))), m')
    ∧ length m' = length m
    ∧ (∀ (i : nat) (b : byte),
         unread f !! i = Some b →
         m' !! (p + i)%nat = Some (to_char (byte.unsigned b + offset)))
    ∧ (∀ j : nat,
         (j < p ∨ p + length (unread f) <= j)%nat → m' !! j = m !! j)
    ∧ (0 <= len < 2 ^ 16 → p = 0%nat → offset = SCHAR_MIN →
       readSamples f len m
       = Some (1, mkFile [] (S (reads f + length (unread f))), m')
       ∧ ∀ (i : nat) (b : byte),
           unread f !! i = Some b →
           int8 <$> m' !! i = Some (byte.unsigned b - 128)).
Proof.
  intros Hlen Hfit.
  exists (written offset (Some p) (unread f) m).
  split; [by apply _readBytes_short|].
  split; [by apply length_written|].
  split; [intros i b Hb; by apply written_lookup_in|].
  split; [intros j Hj; by apply written_lookup_out|].
  intros Hu16 -> ->. split.
  - unfold readSamples. rewrite to_uint16_small by done.
    by rewrite _readBytes_short.
  - intros i b Hb.
    rewrite (written_lookup_in SCHAR_MIN 0 _ m i b) by done.
    cbn. by rewrite int8_bias.
Qed.

Lemma readBytes_partial_prefix_witness :
  ∃ m',
    _readBytes (open [Byte.x00; Byte.xff]) 4 SCHAR_MIN (Some 0%nat)
      [Byte.x11; Byte.x22; Byte.x33; Byte.x44]
    = Some (1, mkFile [] 3, m')
    ∧ m' = [Byte.x80; Byte.x7f; Byte.x33; Byte.x44].
Proof.
  destruct (readBytes_partial_prefix (open [Byte.x00; Byte.xff]) 4
              SCHAR_MIN 0 [Byte.x11; Byte.x22; Byte.x33; Byte.x44])
    as (m' & Hret & _); [cbn; lia | cbn; lia |].
  exists m'. split; [exact Hret|].
  vm_compute in Hret. by injection Hret as <-.
Defined.

(** * The header parser on arbitrary input *)

(** ** Return codes and the sample count *)

Section Frame.

Variable W : Z.
Implicit Types (f : File) (c : Z).

Lemma fits_uninit (n : nat) : fits (Some 0%nat) n (uninit n).
Proof. unfold fits, uninit. by rewrite length_replicate. Qed.

(** The [data] block always returns, with 0 or 5; the sample count is
    touched only with 0. *)
Lemma readHeader_data_frame f c :
  ∃ r f' c', readHeader_data W f c = Some (r, f', c')
             ∧ (r = 0 ∨ r = 5) ∧ (r ≠ 0 → c' = c).
Proof.
  unfold readHeader_data.
  destruct (_readBytes_total f sizeof_hdr 0 (Some 0%nat) (uninit 8))
    as (r & f' & m' & -> & _); [apply (fits_uninit 8)|].
  cbn [mbind option_bind].
  destruct (_ || _); eexists _, _, _; (split; [reflexivity|]);
    split; auto; lia.
Qed.

Lemma readHeader_fmt_frame f c :
  ∃ r f' c', readHeader_fmt W f c = Some (r, f', c')
             ∧ (r = 0 ∨ r = 2 ∨ r = 3 ∨ r = 4 ∨ r = 5)
             ∧ (r ≠ 0 → c' = c).
Proof.
  unfold readHeader_fmt.
  destruct (_readBytes_total f sizeof_hdr 0 (Some 0%nat) (uninit 8))
    as (r1 & f1 & m1 & -> & _); [apply (fits_uninit 8)|].
  cbn [mbind option_bind].
  destruct (_ || _);
    [eexists _, _, _; split; [reflexivity|]; split; auto; lia|].
  destruct (_ <? _);
    [eexists _, _, _; split; [reflexivity|]; split; auto; lia|].
  destruct (_readBytes_total f1 sizeof_fmtValue 0 (Some 0%nat) (uninit 16))
    as (r2 & f2 & m2 & -> & _); [apply (fits_uninit 16)|].
  cbn [mbind option_bind].
  destruct (negb (r2 =? 0));
    [eexists _, _, _; split; [reflexivity|]; split; auto; lia|].
  destruct (_readBytes_total f2
              (to_uint16 (hdr_len (hdr_of m1) - sizeof_fmtValue)) 0 None [])
    as (r3 & f3 & m3 & -> & _); [done|].
  cbn [mbind option_bind].
  destruct (negb (r3 =? 0));
    [eexists _, _, _; split; [reflexivity|]; split; auto; lia|].
  destruct (_ || _);
    [eexists _, _, _; split; [reflexivity|]; split; auto; lia|].
  destruct (readHeader_data_frame f3 c) as (r & f' & c' & -> & Hr & Hc).
  eexists _, _, _; split; [reflexivity|]. split; [lia|done].
Qed.

Lemma readHeader_frame f c :
  ∃ r f' c', readHeader W f c = Some (r, f', c')
             ∧ (r = 0 ∨ r = 1 ∨ r = 2 ∨ r = 3 ∨ r = 4 ∨ r = 5)
             ∧ (r ≠ 0 → c' = c).
Proof.
  unfold readHeader.
  destruct (_readBytes_total f sizeof_chunk 0 (Some 0%nat) (uninit 12))
    as (r1 & f1 & m1 & -> & _); [apply (fits_uninit 12)|].
  cbn [mbind option_bind].
  destruct (_ || _);
    [eexists _, _, _; split; [reflexivity|]; split; auto; lia|].
  destruct (readHeader_fmt_frame f1 c) as (r & f' & c' & -> & Hr & Hc).
  eexists _, _, _; split; [reflexivity|]. split; [lia|done].
Qed.

End Frame.

(** ** Where the source can run out *)

(** A call of [_readBytes] either succeeds within the budget of the file
    or fails on the first read beyond it. *)
Lemma _readBytes_budget (f : File) (len offset : Z) (data : option nat)
    (m : list byte) :
  fits data (Z.to_nat len) m →
  ∃ r f' m', _readBytes f len offset data m = Some (r, f', m')
             ∧ ((r = 0 ∧ budget f' = budget f)
                ∨ (r = 1 ∧ reads f' = S (budget f))).
Proof.
  intros Hfit.
  destruct (_readBytes_total f len offset data m Hfit)
    as (r & f' & m' & E & [->| ->] & _ & H0 & H1).
  - destruct (H0 eq_refl) as (Hlen & Hu & Hr & _).
    eexists _, _, _. split; [exact E|]. left. split; [done|].
    unfold budget. rewrite Hu, Hr, length_drop. lia.
  - destruct (H1 eq_refl) as (Hlen & Hu & Hr & _).
    eexists _, _, _. split; [exact E|]. right. by split.
Qed.

Section Budget.

Variable W : Z.
Implicit Types (f : File) (c : Z).

Lemma readHeader_data_budget f c :
  ∃ r f' c', readHeader_data W f c = Some (r, f', c')
             ∧ (budget f' = budget f
                ∨ (reads f' = S (budget f) ∧ r = 5)).
Proof.
  unfold readHeader_data.
  destruct (_readBytes_budget f sizeof_hdr 0 (Some 0%nat) (uninit 8))
    as (r & f' & m' & -> & [[-> Hb]|[-> Hr]]); [apply (fits_uninit 8)| |];
    cbn [mbind option_bind].
  - destruct (_ || _); eexists _, _, _; (split; [reflexivity|]); by left.
  - eexists _, _, _. split; [reflexivity|]. by right.
Qed.

Lemma readHeader_fmt_budget f c :
  ∃ r f' c', readHeader_fmt W f c = Some (r, f', c')
             ∧ (budget f' = budget f
                ∨ (reads f' = S (budget f) ∧ (r = 2 ∨ r = 3 ∨ r = 5))).
Proof.
  unfold readHeader_fmt.
  destruct (_readBytes_budget f sizeof_hdr 0 (Some 0%nat) (uninit 8))
    as (r1 & f1 & m1 & -> & [[-> Hb1]|[-> Hr1]]); [apply (fits_uninit 8)| |];
    cbn [mbind option_bind];
    [|eexists _, _, _; split; [reflexivity|]; right; auto].
  destruct (_ || _); [eexists _, _, _; split; [reflexivity|]; by left|].
  destruct (_ <? _); [eexists _, _, _; split; [reflexivity|]; by left|].
  destruct (_readBytes_budget f1 sizeof_fmtValue 0 (Some 0%nat) (uninit 16))
    as (r2 & f2 & m2 & -> & [[-> Hb2]|[-> Hr2]]); [apply (fits_uninit 16)| |];
    cbn [mbind option_bind];
    [|eexists _, _, _; split; [reflexivity|]; right; split; [congruence|auto]].
  cbn [Z.eqb negb].
  destruct (_readBytes_budget f2
              (to_uint16 (hdr_len (hdr_of m1) - sizeof_fmtValue)) 0 None [])
    as (r3 & f3 & m3 & -> & [[-> Hb3]|[-> Hr3]]); [done| |];
    cbn [mbind option_bind];
    [|eexists _, _, _; split; [reflexivity|]; right; split; [congruence|auto]].
  cbn [Z.eqb negb].
  destruct (_ || _);
    [eexists _, _, _; split; [reflexivity|]; left; congruence|].
  destruct (readHeader_data_budget f3 c) as (r & f' & c' & -> & [Hb|[Hr ->]]);
    eexists _, _, _; (split; [reflexivity|]).
  - left. congruence.
  - right. split; [congruence|auto].
Qed.

Lemma readHeader_budget f c :
  ∃ r f' c', readHeader W f c = Some (r, f', c')
             ∧ (budget f' = budget f
                ∨ (reads f' = S (budget f)
                   ∧ (r = 1 ∨ r = 2 ∨ r = 3 ∨ r = 5))).
Proof.
  unfold readHeader.
  destruct (_readBytes_budget f sizeof_chunk 0 (Some 0%nat) (uninit 12))
    as (r1 & f1 & m1 & -> & [[-> Hb1]|[-> Hr1]]); [apply (fits_uninit 12)| |];
    cbn [mbind option_bind];
    [|eexists _, _, _; split; [reflexivity|]; right; auto].
  destruct (_ || _); [eexists _, _, _; split; [reflexivity|]; by left|].
  destruct (readHeader_fmt_budget f1 c)
    as (r & f' & c' & -> & [Hb|[Hr Hcode]]);
    eexists _, _, _; (split; [reflexivity|]).
  - left. congruence.
  - right. split; [congruence|]. destruct Hcode as [->|[->| ->]]; auto.
Qed.

(** When the source ran out, the code is that of the block it ran out in;
    0 and 4 are returned only within the budget. *)
Lemma readHeader_ran_out_code f c r f' c' :
  readHeader W f c = Some (r, f', c') →
  ran_out f f' = true →
  r = 1 ∨ r = 2 ∨ r = 3 ∨ r = 5.
Proof.
  intros E Hout.
  destruct (readHeader_budget f c) as (r0 & f0 & c0 & E0 & H).
  rewrite E in E0. injection E0 as <- <- <-.
  unfold ran_out in Hout. apply Nat.ltb_lt in Hout.
  destruct H as [Hb|[_ Hcode]]; [|done].
  unfold budget in *. lia.
Qed.

End Budget.

(** C7.  On every file and whatever the sample count held before,
    [readHeader] returns one of the codes 0 to 5, and when the code is not
    0 the sample count on return is the one on entry: the only store to
    [*pSampleCnt] is the one before [return 0]. *)
Theorem readHeader_error_keeps_sampleCnt (W : Z) (f : File) (c : Z) :
  ∃ r f' c',
    readHeader W f c = Some (r, f', c')
    ∧ 0 <= r <= 5
    ∧ (r ≠ 0 → c' = c).
Proof.
  destruct (readHeader_frame W f c) as (r & f' & c' & E & Hr & Hc).
  exists r, f', c'. split; [done|]. split; [lia|done].
Qed.

(** ** The profile gate *)

(** C4, as stated, fails: the [fmt ] chunk declares 18 bytes, the
    descriptor (audio format 2) is read in full, and the source ends
    before the two trailing bytes.  [readHeader] returns 3, not 4: the
    trailing bytes are read before the profile is looked at. *)
Lemma readHeader_bad_profile_truncated_fmt :
  audioFormat (fmtValue_of desc_format_2) ≠ 1
  ∧ readHeader 16
      (open (chunk_bytes 0 ++ hdr_bytes (_ids fmt) 18 ++ desc_format_2)) 0
    = Some (3, mkFile [] 37, 0).
Proof. split; [by vm_compute|by vm_compute]. Qed.

(** C4, amended.  Let the [fmt ] chunk be read in full: a valid main
    chunk, a [fmt ] header declaring [L >= 16], the 16 bytes [desc] of the
    descriptor and the trailing bytes [pad] that [readHeader] skips.  If
    one of the four checks fails on [desc], [readHeader] returns 4, the same
    code whichever check it is, with the file right after [pad] and the
    sample count untouched.  If all four hold it goes on to the [data]
    block and does not return 4.  So it returns 4 exactly when a check
    fails. *)
Theorem readHeader_profile_gate (W riffLen L : Z) (desc pad g : list byte)
    (r : nat) (c : Z) :
  16 <= L < 2 ^ 32 →
  length desc = 16%nat →
  length pad = Z.to_nat (to_uint16 (L - 16)) →
  let v := fmtValue_of desc in
  let f := mkFile (chunk_bytes riffLen ++ hdr_bytes (_ids fmt) L
                   ++ desc ++ pad ++ g) r in
  let f_gate := mkFile g (r + 36 + length pad) in
  (audioFormat v ≠ 1 ∨ numChannels v ≠ 1 ∨ bitsPerSample v ≠ 8
   ∨ sampleRate v ≠ SAMPLE_RATE →
   readHeader W f c = Some (4, f_gate, c))
  ∧ (audioFormat v = 1 ∧ numChannels v = 1 ∧ bitsPerSample v = 8
     ∧ sampleRate v = SAMPLE_RATE →
     readHeader W f c = readHeader_data W f_gate c)
  ∧ ((∃ f' c', readHeader W f c = Some (4, f', c'))
     ↔ ¬ (audioFormat v = 1 ∧ numChannels v = 1 ∧ bitsPerSample v = 8
          ∧ sampleRate v = SAMPLE_RATE)).
Proof.
  intros HL Hdesc Hpad v f f_gate.
  assert (readHeader W f c
          = if profile_ok v then readHeader_data W f_gate c
            else Some (4, f_gate, c)) as E.
  { subst f f_gate. rewrite readHeader_chunk, readHeader_fmt_chunk by done.
    by replace (r + 12 + 8 + 16 + length pad)%nat
      with (r + 36 + length pad)%nat by lia. }
  pose proof (profile_ok_spec v) as Hok.
  destruct (profile_ok v).
  - assert (audioFormat v = 1 ∧ numChannels v = 1 ∧ bitsPerSample v = 8
            ∧ sampleRate v = SAMPLE_RATE) as Hall by (by apply Hok).
    split; [intros Hbad; lia|]. split; [done|].
    split; [|done].
    intros (f' & c' & E4). rewrite E in E4.
    destruct (readHeader_data_frame W f_gate c) as (r' & f'' & c'' & E' & Hr' & _).
    rewrite E' in E4. injection E4 as -> _ _. lia.
  - assert (¬ (audioFormat v = 1 ∧ numChannels v = 1 ∧ bitsPerSample v = 8
               ∧ sampleRate v = SAMPLE_RATE)) as Hnot.
    { intros Hall. apply Hok in Hall. discriminate. }
    split; [done|]. split; [done|].
    split; [done|]. intros _. by eexists _, _.
Qed.

Lemma readHeader_profile_gate_witness :
  readHeader 16
    (open (chunk_bytes 0 ++ hdr_bytes (_ids fmt) 18 ++ desc_format_2
           ++ [Byte.x00; Byte.x00] ++ hdr_bytes (_ids data) 3)) 0
  = Some (4, mkFile (hdr_bytes (_ids data) 3) 38, 0).
Proof.
  apply (readHeader_profile_gate 16 0 18 desc_format_2
           [Byte.x00; Byte.x00] (hdr_bytes (_ids data) 3) 0 0);
    [lia | reflexivity | reflexivity |].
  left. by vm_compute.
Defined.

(** ** A source that runs out *)

(** C8, as stated, fails: on the empty file the source runs out in the
    main chunk and [readHeader] returns 1; on twelve bytes with a wrong id
    nothing runs out and [readHeader] returns 1 as well.  Running out has
    no code of its own. *)
Lemma readHeader_exhausted_same_code :
  ∃ f1 f2,
    readHeader 16 (open []) 0 = Some (1, f1, 0)
    ∧ ran_out (open []) f1 = true
    ∧ readHeader 16 (open chunk_RIFX) 0 = Some (1, f2, 0)
    ∧ ran_out (open chunk_RIFX) f2 = false.
Proof. by eexists _, _; repeat split. Qed.

(** C8, amended.  When the source runs out while the header is parsed,
    [readHeader] returns 1, 2, 3 or 5, never 0 or 4: it returns the code
    of the block it is in, with the file used up and one read more than
    there were bytes: 1 inside the main chunk, 2 inside the [fmt ] header,
    3 inside the descriptor or the trailing bytes of the [fmt ] chunk, 5
    inside the [data] header.  These are the codes the same blocks return
    for a mismatch, so they differ from block to block but not between
    running out and a mismatch. *)
Theorem readHeader_exhausted_code (W riffLen L : Z) (br ba : Z)
    (pad g : list byte) (r : nat) (c : Z) :
  let eof (bs : list byte) := mkFile [] (S (r + length bs)) in
  (∀ f code f' c',
     readHeader W f c = Some (code, f', c') →
     ran_out f f' = true →
     code = 1 ∨ code = 2 ∨ code = 3 ∨ code = 5)
  ∧ (∀ bs, (length bs < 12)%nat →
     readHeader W (mkFile bs r) c = Some (1, eof bs, c))
  ∧ ((length g < 8)%nat →
     let bs := chunk_bytes riffLen ++ g in
     readHeader W (mkFile bs r) c = Some (2, eof bs, c))
  ∧ (16 <= L < 2 ^ 32 →
     (length g < 16 + Z.to_nat (to_uint16 (L - 16)))%nat →
     let bs := chunk_bytes riffLen ++ hdr_bytes (_ids fmt) L ++ g in
     readHeader W (mkFile bs r) c = Some (3, eof bs, c))
  ∧ (16 <= L < 2 ^ 32 →
     length pad = Z.to_nat (to_uint16 (L - 16)) →
     (length g < 8)%nat →
     let bs := chunk_bytes riffLen ++ hdr_bytes (_ids fmt) L
               ++ fmtValue_bytes (profile br ba) ++ pad ++ g in
     readHeader W (mkFile bs r) c = Some (5, eof bs, c)).
Proof.
  intros eof. subst eof. cbn beta. repeat split.
  - intros f code f' c' E Hout. by eapply readHeader_ran_out_code.
  - intros bs Hbs. by apply readHeader_short.
  - intros Hg bs. subst bs.
    rewrite readHeader_chunk, readHeader_fmt_short by done.
    cbn [unread reads]. rewrite length_app, length_chunk_bytes.
    do 4 f_equal. lia.
  - intros HL Hg bs. subst bs.
    rewrite readHeader_chunk.
    assert (hdr_of (hdr_bytes (_ids fmt) L)
            = {| hdr_id := _ids fmt; hdr_len := L |}) as Hhdr.
    { rewrite hdr_of_hdr_bytes by done. by rewrite Z.mod_small by lia. }
    rewrite !length_app, length_chunk_bytes, length_hdr_bytes by done.
    destruct (decide (length g < 16)%nat) as [Hshort|Hlong].
    + rewrite readHeader_fmt_value_short;
        rewrite ?Hhdr; cbn [hdr_id hdr_len]; try done; [|lia].
      do 4 f_equal. lia.
    + rewrite <- (take_drop 16 g) at 1.
      rewrite readHeader_fmt_pad_short;
        rewrite ?Hhdr; cbn [hdr_id hdr_len]; try done.
      * rewrite length_drop. do 4 f_equal. lia.
      * lia.
      * rewrite length_take. lia.
      * rewrite length_drop. lia.
  - intros HL Hpad Hg bs. subst bs.
    rewrite readHeader_chunk, readHeader_fmt_chunk by done.
    replace (profile_ok (fmtValue_of (fmtValue_bytes (profile br ba))))
      with true
      by (symmetry; apply profile_ok_spec, fmtValue_of_profile).
    rewrite readHeader_data_short by done. cbn [unread reads].
    rewrite !length_app, length_chunk_bytes, length_hdr_bytes,
      length_fmtValue_bytes by done.
    do 4 f_equal. lia.
Qed.

Lemma readHeader_exhausted_code_witness :
  readHeader 16 (mkFile [Byte.x52; Byte.x49] 0) 0 = Some (1, mkFile [] 3, 0)
  ∧ readHeader 16 (mkFile (chunk_bytes 0 ++ [Byte.x66]) 0) 0
    = Some (2, mkFile [] 14, 0)
  ∧ readHeader 16
      (mkFile (chunk_bytes 0 ++ hdr_bytes (_ids fmt) 18 ++ [Byte.x66]) 0) 0
    = Some (3, mkFile [] 22, 0)
  ∧ readHeader 16
      (mkFile (chunk_bytes 0 ++ hdr_bytes (_ids fmt) 18
               ++ fmtValue_bytes (profile 9615 1) ++ [Byte.x00; Byte.x00]
               ++ [Byte.x66]) 0) 0
    = Some (5, mkFile [] 40, 0).
Proof.
  destruct (readHeader_exhausted_code 16 0 18 9615 1
              [Byte.x00; Byte.x00] [Byte.x66] 0 0)
    as (_ & H1 & H2 & H3 & H4).
  split; [apply (H1 [Byte.x52; Byte.x49]); cbn; lia|].
  split; [apply H2; cbn; lia|].
  split; [apply H3; [lia | cbn; lia]|].
  apply H4; [lia | reflexivity | cbn; lia].
Defined.

(** * Further properties of [_readBytes] *)

(** ** Success and failure *)

Lemma unsigned_to_char (z : Z) : byte.unsigned (to_char z) = z mod 256.
Proof. unfold to_char. by rewrite byte.unsigned_of_Z. Qed.

(** [_readBytes] returns 0 exactly when the source still holds [len]
    bytes; otherwise it returns 1.  There is no third outcome when the
    destination has room for [len] bytes. *)
Theorem readBytes_succeeds_iff (f : File) (len offset : Z)
    (data : option nat) (m : list byte) :
  fits data (Z.to_nat len) m →
  ((∃ f' m', _readBytes f len offset data m = Some (0, f', m'))
   ↔ (Z.to_nat len <= length (unread f))%nat)
  ∧ ((∃ f' m', _readBytes f len offset data m = Some (1, f', m'))
     ↔ (length (unread f) < Z.to_nat len)%nat).
Proof.
  intros Hfit.
  destruct (_readBytes_total f len offset data m Hfit)
    as (r & f' & m' & E & Hr & _ & H0 & H1).
  split; split.
  - intros (f0 & m0 & E0). rewrite E in E0. injection E0 as -> _ _.
    by apply H0.
  - intros Hlen. destruct Hr as [->| ->]; [by eexists _, _|].
    destruct (H1 eq_refl) as [Hlt _]. lia.
  - intros (f0 & m0 & E0). rewrite E in E0. injection E0 as -> _ _.
    by apply H1.
  - intros Hlen. destruct Hr as [->| ->]; [|by eexists _, _].
    destruct (H0 eq_refl) as [Hle _]. lia.
Qed.

Lemma readBytes_succeeds_iff_witness :
  (∃ f' m', _readBytes (open [Byte.x01; Byte.x02]) 2 0 (Some 0%nat)
              (uninit 2) = Some (0, f', m'))
  ∧ (∃ f' m', _readBytes (open [Byte.x01; Byte.x02]) 3 0 (Some 0%nat)
                (uninit 3) = Some (1, f', m')).
Proof.
  split.
  - apply (readBytes_succeeds_iff (open [Byte.x01; Byte.x02]) 2 0
             (Some 0%nat) (uninit 2)); cbn; lia.
  - apply (readBytes_succeeds_iff (open [Byte.x01; Byte.x02]) 3 0
             (Some 0%nat) (uninit 3)); cbn; lia.
Defined.

(** When [len] bytes are there and the destination has [len] slots from
    the pointer on, [_readBytes] returns 0 after exactly [len] reads; slot
    [p + i] holds byte [i] plus the offset reduced modulo 256, for every
    [i < len], and every other slot is as before. *)
Theorem readBytes_stores_all (f : File) (len offset : Z) (p : nat)
    (m : list byte) :
  (Z.to_nat len <= length (unread f))%nat →
  (p + Z.to_nat len <= length m)%nat →
  ∃ m',
    _readBytes f len offset (Some p) m
    = Some (0, mkFile (drop (Z.to_nat len) (unread f))
                      (reads f + Z.to_nat len), m')
    ∧ length m' = length m
    ∧ (∀ (i : nat) (b : byte),
         (i < Z.to_nat len)%nat →
         unread f !! i = Some b →
         ∃ s, m' !! (p + i)%nat = Some s
              ∧ byte.unsigned s = (byte.unsigned b + offset) mod 256)
    ∧ (∀ j : nat,
         (j < p ∨ p + Z.to_nat len <= j)%nat → m' !! j = m !! j).
Proof.
  intros Hsrc Hfit.
  assert (length (take (Z.to_nat len) (unread f)) = Z.to_nat len) as Htake
    by (rewrite length_take; lia).
  exists (written offset (Some p) (take (Z.to_nat len) (unread f)) m).
  split; [by apply _readBytes_loop_ok|].
  split; [apply length_written; cbn [fits]; lia|].
  split.
  - intros i b Hi Hb. eexists. split; [|apply unsigned_to_char].
    apply written_lookup_in; [cbn [fits]; lia|].
    by rewrite lookup_take_lt.
  - intros j Hj. apply written_lookup_out; cbn [fits]; lia.
Qed.

Lemma readBytes_stores_all_witness :
  ∃ m',
    _readBytes (open [Byte.xff; Byte.x01; Byte.x02]) 2 3 (Some 1%nat)
      [Byte.x11; Byte.x22; Byte.x33; Byte.x44]
    = Some (0, mkFile [Byte.x02] 2, m')
    ∧ m' = [Byte.x11; Byte.x02; Byte.x04; Byte.x44].
Proof.
  destruct (readBytes_stores_all (open [Byte.xff; Byte.x01; Byte.x02]) 2 3 1
              [Byte.x11; Byte.x22; Byte.x33; Byte.x44])
    as (m' & Hret & _); [cbn; lia | cbn; lia |].
  exists m'. split; [exact Hret|].
  vm_compute in Hret. by injection Hret as <-.
Defined.

(** With a null destination [_readBytes] stores nothing and cannot go
    wrong, whatever the memory, the length and the offset: the memory comes
    back as it was, and the file has moved on by [len] bytes, or to its end
    with one read more when it holds fewer. *)
Theorem readBytes_null_discards (f : File) (len offset : Z) (m : list byte) :
  ∃ r f',
    _readBytes f len offset None m = Some (r, f', m)
    ∧ unread f' = drop (Z.to_nat len) (unread f)
    ∧ ((r = 0 ∧ reads f' = (reads f + Z.to_nat len)%nat)
       ∨ (r = 1 ∧ reads f' = S (reads f + length (unread f)))).
Proof.
  destruct (_readBytes_total f len offset None m I)
    as (r & f' & m' & E & Hr & _ & H0 & H1).
  destruct Hr as [->| ->].
  - destruct (H0 eq_refl) as (_ & Hu & Hreads & ->).
    exists 0, f'. split; [exact E|]. split; [done|]. by left.
  - destruct (H1 eq_refl) as (Hlen & Hu & Hreads & ->).
    exists 1, f'. split; [exact E|]. split; [|by right].
    rewrite Hu. symmetry. apply drop_ge. lia.
Qed.

(** ** The offset counts modulo 256 *)

Lemma to_char_add_256 (z k : Z) : to_char (z + 256 * k) = to_char z.
Proof.
  apply byte.unsigned_inj. rewrite !unsigned_to_char.
  rewrite (Z.mul_comm 256 k). by apply Z.mod_add.
Qed.

Lemma _readBytes_loop_offset_256 (n : nat) : ∀ f offset k buf m,
  _readBytes_loop n f (offset + 256 * k) buf m
  = _readBytes_loop n f offset buf m.
Proof.
  induction n as [|n IH]; intros f offset k buf m; [done|].
  cbn [_readBytes_loop]. destruct (File_read f) as [d f'].
  destruct (d <? 0); [done|]. destruct buf as [p|]; [|apply IH].
  rewrite Z.add_assoc, to_char_add_256.
  destruct (store m p (to_char (d + offset))) as [m'|]; [|done].
  cbn [mbind option_bind]. apply IH.
Qed.

(** Only the low eight bits of the offset matter: offsets that differ by
    a multiple of 256 give the same result in every respect. *)
Theorem readBytes_offset_mod_256 (f : File) (len offset k : Z)
    (data : option nat) (m : list byte) :
  _readBytes f len (offset + 256 * k) data m = _readBytes f len offset data m.
Proof. apply _readBytes_loop_offset_256. Qed.

(** ** Reading in two goes *)

Lemma ptr_add_0 (buf : option nat) : ptr_add buf 0 = buf.
Proof. destruct buf as [p|]; [|done]. cbn. by rewrite Nat.add_0_r. Qed.

(** [a + b] iterations are [a] iterations followed, when those found
    their bytes, by [b] more with the pointer [a] slots on. *)
Lemma _readBytes_loop_add (a b : nat) : ∀ f offset buf m,
  _readBytes_loop (a + b) f offset buf m
  = '(r, f', m') ← _readBytes_loop a f offset buf m;
    if r =? 0 then _readBytes_loop b f' offset (ptr_add buf a) m'
    else Some (r, f', m').
Proof.
  induction a as [|a IH]; intros f offset buf m.
  - cbn [Nat.add _readBytes_loop mbind option_bind Z.eqb].
    by rewrite ptr_add_0.
  - cbn [Nat.add _readBytes_loop]. destruct (File_read f) as [d f'].
    destruct (d <? 0); [done|]. destruct buf as [p|].
    + destruct (store m p (to_char (d + offset))) as [m'|]; [|done].
      cbn [mbind option_bind]. rewrite IH.
      unfold ptr_add. cbn [fmap option_fmap option_map].
      by rewrite Nat.add_succ_comm.
    + by rewrite IH.
Qed.

(** What lies behind the slots that are written stays out of it. *)
Lemma _readBytes_loop_app_l (n : nat) : ∀ f offset p (m k : list byte),
  (p + n <= length m)%nat →
  _readBytes_loop n f offset (Some p) (m ++ k)
  = (λ '(r, f', m'), (r, f', m' ++ k))
      <$> _readBytes_loop n f offset (Some p) m.
Proof.
  induction n as [|n IH]; intros f offset p m k Hfit; [done|].
  cbn [_readBytes_loop]. destruct (File_read f) as [d f'].
  destruct (d <? 0); [done|].
  unfold store. rewrite !decide_True by (rewrite ?length_app; lia).
  cbn [mbind option_bind].
  rewrite insert_app_l by lia.
  apply IH. rewrite length_insert. lia.
Qed.

(** What lies in front of the destination stays out of it as well. *)
Lemma _readBytes_loop_app_r (n : nat) : ∀ f offset p (l m : list byte),
  _readBytes_loop n f offset (Some (length l + p)%nat) (l ++ m)
  = (λ '(r, f', m'), (r, f', l ++ m'))
      <$> _readBytes_loop n f offset (Some p) m.
Proof.
  induction n as [|n IH]; intros f offset p l m; [done|].
  cbn [_readBytes_loop]. destruct (File_read f) as [d f'].
  destruct (d <? 0); [done|].
  unfold store. rewrite length_app.
  destruct (decide (p < length m)%nat) as [Hp|Hp].
  - rewrite decide_True by lia. cbn [mbind option_bind].
    rewrite insert_app_r, <- Nat.add_succ_r. apply IH.
  - by rewrite decide_False by lia.
Qed.

(** One call for [a + b] bytes does what a call for [a] bytes followed, if
    it returned 0, by a call for [b] bytes at the pointer moved on by [a]
    does; if the first call fails, its result is the result. *)
Theorem readBytes_split (f : File) (a b offset : Z) (data : option nat)
    (m : list byte) :
  0 <= a → 0 <= b →
  _readBytes f (a + b) offset data m
  = '(r, f', m') ← _readBytes f a offset data m;
    if r =? 0 then _readBytes f' b offset (ptr_add data (Z.to_nat a)) m'
    else Some (r, f', m').
Proof.
  intros Ha Hb. unfold _readBytes.
  rewrite Z2Nat.inj_add by done. apply _readBytes_loop_add.
Qed.

Lemma readBytes_split_witness :
  _readBytes (open [Byte.x01; Byte.x02; Byte.x03]) (1 + 2) 0 (Some 0%nat)
    (uninit 3)
  = Some (0, mkFile [] 3, [Byte.x01; Byte.x02; Byte.x03]).
Proof.
  rewrite (readBytes_split (open [Byte.x01; Byte.x02; Byte.x03]) 1 2 0
             (Some 0%nat) (uninit 3)) by lia.
  reflexivity.
Defined.

(** * Further properties of [readSamples] *)

Lemma readSamples_0_inv (f : File) (count : Z) (samples : list byte)
    (f' : File) (samples' : list byte) :
  readSamples f count samples = Some (0, f', samples') →
  _readBytes f (to_uint16 count) SCHAR_MIN (Some 0%nat) samples
  = Some (0, f', samples').
Proof.
  unfold readSamples.
  destruct (_readBytes _ _ _ _ _) as [[[r f0] s0]|]; [|done].
  cbn [mbind option_bind].
  destruct (Z.eqb_spec r 0) as [->|Hr]; cbn [negb]; [done|].
  intros [=].
Qed.

(** Two windows read one after the other give what one call for both
    gives: if a first call for [a] samples into [s1] (of [a] slots) returns
    0, then the call for [a + b] samples into [s1 ++ s2] returns what the
    second call for [b] samples into [s2] returns, leaves the file where it
    leaves it, and holds the first window followed by the second. *)
Theorem readSamples_windows (f f1 : File) (a b : Z) (s1 s1' s2 : list byte) :
  0 <= a → 0 <= b → a + b < 2 ^ 16 →
  length s1 = Z.to_nat a →
  readSamples f a s1 = Some (0, f1, s1') →
  readSamples f (a + b) (s1 ++ s2)
  = (λ '(r, f2, s2'), (r, f2, s1' ++ s2')) <$> readSamples f1 b s2.
Proof.
  intros Ha Hb Hab Hs1 E1.
  apply readSamples_0_inv in E1.
  rewrite to_uint16_small in E1 by lia.
  assert (length s1' = length s1) as Hs1'.
  { destruct (_readBytes_total f a SCHAR_MIN (Some 0%nat) s1)
      as (r & f' & m' & E & _ & Hlen & _); [cbn [fits]; lia|].
    rewrite E1 in E. by injection E as _ _ <-. }
  unfold readSamples.
  rewrite !to_uint16_small by lia.
  unfold _readBytes in *.
  rewrite Z2Nat.inj_add, _readBytes_loop_add by done.
  rewrite _readBytes_loop_app_l by lia.
  rewrite E1. cbn [fmap option_fmap option_map mbind option_bind Z.eqb].
  unfold ptr_add. cbn [fmap option_fmap option_map].
  rewrite <- Hs1, <- Hs1', <- (Nat.add_0_r (length s1')).
  cbn [Nat.add]. rewrite _readBytes_loop_app_r.
  destruct (_readBytes_loop (Z.to_nat b) f1 SCHAR_MIN (Some 0%nat) s2)
    as [[[r f2] s2']|]; [|done].
  cbn [fmap option_fmap option_map mbind option_bind].
  by destruct (negb (r =? 0)).
Qed.

Lemma readSamples_windows_witness :
  readSamples (open [Byte.x00; Byte.x80; Byte.xff]) (1 + 2)
    (uninit 1 ++ uninit 2)
  = Some (0, mkFile [] 3, [Byte.x80] ++ [Byte.x00; Byte.x7f]).
Proof.
  rewrite (readSamples_windows (open [Byte.x00; Byte.x80; Byte.xff])
             (mkFile [Byte.x80; Byte.xff] 1) 1 2 (uninit 1) [Byte.x80]
             (uninit 2));
    [reflexivity | lia | lia | lia | reflexivity | reflexivity].
Defined.

(** ** The bias loses nothing *)

Lemma bias_undo (b : byte) :
  to_char (int8 (to_char (byte.unsigned b + SCHAR_MIN)) + 128) = b.
Proof.
  rewrite int8_bias. unfold to_char.
  rewrite <- (byte.of_Z_unsigned b) at 2. f_equal. lia.
Qed.

(** A loop that ran to its end has stored inside the destination. *)
Lemma _readBytes_loop_0_fits (n : nat) : ∀ f offset p (m : list byte) f' m',
  _readBytes_loop n f offset (Some p) m = Some (0, f', m') →
  (p <= length m)%nat →
  (p + n <= length m)%nat.
Proof.
  induction n as [|n IH]; intros f offset p m f' m' E Hp; [lia|].
  cbn [_readBytes_loop] in E. destruct (File_read f) as [d f1].
  destruct (d <? 0); [done|].
  unfold store in E. destruct (decide (p < length m)%nat) as [Hlt|]; [|done].
  cbn [mbind option_bind] in E.
  apply IH in E; rewrite length_insert in *; lia.
Qed.

(** From the samples of a successful [readSamples] with a count below
    65536 the bytes of the file come back: adding 128 to each of the first
    [count] samples and keeping eight bits gives the first [count] bytes
    that were unread. *)
Theorem readSamples_lossless (f : File) (count : Z) (samples : list byte)
    (f' : File) (samples' : list byte) :
  0 <= count < 2 ^ 16 →
  readSamples f count samples = Some (0, f', samples') →
  (λ s, to_char (int8 s + 128)) <$> take (Z.to_nat count) samples'
  = take (Z.to_nat count) (unread f).
Proof.
  intros Hcount E. apply readSamples_0_inv in E.
  rewrite to_uint16_small in E by done.
  assert (Z.to_nat count <= length samples)%nat as Hbuf
    by (apply (_readBytes_loop_0_fits _ _ _ 0 _ _ _ E); lia).
  destruct (_readBytes_total f count SCHAR_MIN (Some 0%nat) samples)
    as (r & f0 & m0 & E0 & _ & _ & H0 & _); [cbn [fits]; lia|].
  rewrite E in E0. injection E0 as <- <- <-.
  destruct (H0 eq_refl) as (Hsrc & _ & _ & ->).
  unfold written. rewrite take_0, app_nil_l.
  rewrite take_app_length'
    by (rewrite length_fmap, length_take; lia).
  rewrite <- list_fmap_compose.
  rewrite <- (list_fmap_id (take (Z.to_nat count) (unread f))) at 2.
  apply list_fmap_ext. intros i b _. apply bias_undo.
Qed.

Lemma readSamples_lossless_witness :
  (λ s, to_char (int8 s + 128)) <$> take (Z.to_nat 2) [Byte.x80; Byte.x7f]
  = take (Z.to_nat 2) (unread (open [Byte.x00; Byte.xff; Byte.x33])).
Proof.
  apply (readSamples_lossless (open [Byte.x00; Byte.xff; Byte.x33]) 2
           (uninit 2) (mkFile [Byte.x33] 2) [Byte.x80; Byte.x7f]);
    [lia | reflexivity].
Defined.

(** * Further properties of [readHeader] *)

(** ** Headers that are accepted *)

(** A container of the accepted profile whose [fmt ] chunk declares
    between 16 and 65551 bytes is read up to its first sample, whatever
    the outer length, the byte rate and the block alignment say: the
    result is 0, [28 + L] bytes are read, the file is left on the first
    sample and the sample count is the length of the [data] chunk
    (converted to [sampleCnt_t]). *)
Theorem readHeader_accepts_profile (W riffLen L br ba : Z) (pad : list byte)
    (N : Z) (rest : list byte) (r : nat) (c : Z) :
  16 <= L <= 65551 →
  length pad = Z.to_nat (L - 16) →
  0 <= N < 2 ^ 32 →
  readHeader W
    (mkFile (header_bytes riffLen L (profile br ba) pad N ++ rest) r) c
  = Some (0, mkFile rest (r + 28 + Z.to_nat L), to_sampleCnt W N).
Proof.
  intros HL Hpad HN.
  rewrite (readHeader_accepts W riffLen L br ba pad N rest r c);
    [|lia|rewrite to_uint16_small by lia; done|done].
  rewrite Hpad.
  by replace (r + 44 + Z.to_nat (L - 16))%nat
    with (r + 28 + Z.to_nat L)%nat by lia.
Qed.

Lemma readHeader_accepts_profile_witness :
  readHeader 32
    (mkFile (header_bytes 38 18 (profile 9615 1) [Byte.x00; Byte.x00] 70000
             ++ [Byte.x80]) 0) 5
  = Some (0, mkFile [Byte.x80] 46, to_sampleCnt 32 70000).
Proof.
  apply (readHeader_accepts_profile 32 38 18 9615 1 [Byte.x00; Byte.x00]
           70000 [Byte.x80] 0 5); [lia | reflexivity | lia].
Defined.

(** ** What a result of 0 says about the file *)

Lemma length_field (m : list byte) (off n : nat) :
  (off + n <= length m)%nat → length (field m off n) = n.
Proof. intros H. unfold field. rewrite length_take, length_drop. lia. Qed.

Lemma field_app (m : list byte) (off n k : nat) :
  field m off n ++ field m (off + n) k = field m off (n + k).
Proof.
  unfold field. rewrite <- (drop_drop m n off). apply take_take_drop.
Qed.

(** Eight bytes are the chunk header that [hdr_of] reads from them. *)
Lemma hdr_bytes_hdr_of (hb : list byte) :
  length hb = 8%nat →
  hdr_bytes (hdr_id (hdr_of hb)) (hdr_len (hdr_of hb)) = hb.
Proof.
  intros Hhb. unfold hdr_bytes, hdr_of. cbn [hdr_id hdr_len].
  pose proof (split_le_combine (field hb 4 4)) as Hsplit.
  rewrite length_field in Hsplit by lia. rewrite Hsplit.
  pose proof (field_app hb 0 4 4) as Happ. cbn [Nat.add] in Happ.
  rewrite Happ. unfold field.
  by rewrite drop_0, take_ge by lia.
Qed.

Lemma hdr_len_range (hb : list byte) :
  length hb = 8%nat → 0 <= hdr_len (hdr_of hb) < 2 ^ 32.
Proof.
  intros Hhb. unfold hdr_of. cbn [hdr_len].
  pose proof (le_combine_bound (field hb 4 4)) as Hb.
  rewrite length_field in Hb by lia. exact Hb.
Qed.

Lemma chunk_bytes_chunk_of (cb : list byte) :
  length cb = 12%nat →
  hdr_id (chunk_hdr (chunk_of cb)) = _ids riff →
  chunk_fmt (chunk_of cb) = _ids wave →
  chunk_bytes (hdr_len (chunk_hdr (chunk_of cb))) = cb.
Proof.
  intros Hcb Hriff Hwave. unfold chunk_bytes. rewrite <- Hriff, <- Hwave.
  unfold chunk_of, hdr_bytes, hdr_of. cbn [chunk_hdr chunk_fmt hdr_id hdr_len].
  pose proof (split_le_combine (field cb 4 4)) as Hsplit.
  rewrite length_field in Hsplit by lia. rewrite Hsplit.
  pose proof (field_app cb 0 4 4) as Happ. cbn [Nat.add] in Happ.
  pose proof (field_app cb 0 8 4) as Happ'. cbn [Nat.add] in Happ'.
  rewrite Happ, Happ'. unfold field.
  by rewrite drop_0, take_ge by lia.
Qed.

Section Inversion.

Variable W : Z.
Implicit Types (u g : list byte) (r : nat) (c : Z).

Lemma readHeader_data_0_inv u r c (f' : File) c' :
  readHeader_data W (mkFile u r) c = Some (0, f', c') →
  ∃ N, 0 <= N < 2 ^ 32
       ∧ u = hdr_bytes (_ids data) N ++ unread f'
       ∧ reads f' = (r + 8)%nat
       ∧ c' = to_sampleCnt W N.
Proof.
  intros E.
  destruct (decide (length u < 8)%nat) as [Hshort|Hlong].
  { by rewrite readHeader_data_short in E. }
  rewrite <- (take_drop 8 u) in E.
  assert (length (take 8 u) = 8%nat) as Hhb by (rewrite length_take; lia).
  rewrite readHeader_data_read in E by done.
  destruct (Z.eqb_spec (memcmp (hdr_id (hdr_of (take 8 u))) (_ids data) 4) 0)
    as [Hid|Hid]; [|done].
  injection E as <- <-.
  apply memcmp_4_eq in Hid; [|by apply length_field; lia|done].
  exists (hdr_len (hdr_of (take 8 u))).
  split; [by apply hdr_len_range|]. split; [|done].
  cbn [unread reads]. rewrite <- Hid, hdr_bytes_hdr_of by done.
  by rewrite take_drop.
Qed.

Lemma readHeader_fmt_0_inv u r c (f' : File) c' :
  readHeader_fmt W (mkFile u r) c = Some (0, f', c') →
  ∃ L desc pad g,
    16 <= L < 2 ^ 32
    ∧ length desc = 16%nat
    ∧ length pad = Z.to_nat (to_uint16 (L - 16))
    ∧ profile_ok (fmtValue_of desc) = true
    ∧ u = hdr_bytes (_ids fmt) L ++ desc ++ pad ++ g
    ∧ readHeader_data W (mkFile g (r + 8 + 16 + length pad)) c
      = Some (0, f', c').
Proof.
  intros E.
  destruct (decide (length u < 8)%nat) as [Hshort|Hlong].
  { by rewrite readHeader_fmt_short in E. }
  rewrite <- (take_drop 8 u) in E.
  set (hb := take 8 u) in *. set (g1 := drop 8 u) in *.
  assert (length hb = 8%nat) as Hhb by (subst hb; rewrite length_take; lia).
  destruct (Z.eq_dec (memcmp (hdr_id (hdr_of hb)) (_ids fmt) 4) 0)
    as [Hid|Hid]; [|by rewrite readHeader_fmt_id in E].
  destruct (Z_lt_dec (hdr_len (hdr_of hb)) 16) as [Hlen|Hlen];
    [by rewrite readHeader_fmt_len in E|].
  destruct (decide (length g1 < 16)%nat) as [Hg1|Hg1];
    [by rewrite readHeader_fmt_value_short in E by (done || lia)|].
  rewrite <- (take_drop 16 g1) in E.
  set (desc := take 16 g1) in *. set (g2 := drop 16 g1) in *.
  assert (length desc = 16%nat) as Hdesc
    by (subst desc; rewrite length_take; lia).
  set (n := Z.to_nat (to_uint16 (hdr_len (hdr_of hb) - 16))) in *.
  destruct (decide (length g2 < n)%nat) as [Hg2|Hg2];
    [by rewrite readHeader_fmt_pad_short in E by (done || lia)|].
  rewrite <- (take_drop n g2) in E.
  set (pad := take n g2) in *. set (g3 := drop n g2) in *.
  assert (length pad = n) as Hpad by (subst pad; rewrite length_take; lia).
  rewrite readHeader_fmt_read in E by (done || lia).
  destruct (profile_ok (fmtValue_of desc)) eqn:Hok; [|done].
  apply memcmp_4_eq in Hid; [|by apply length_field; lia|done].
  pose proof (hdr_len_range hb Hhb) as Hrange.
  exists (hdr_len (hdr_of hb)), desc, pad, g3.
  split; [lia|]. split; [done|]. split; [done|]. split; [done|].
  split; [|done].
  rewrite <- Hid, hdr_bytes_hdr_of by done.
  subst pad g3 desc g2 hb g1. by rewrite !take_drop.
Qed.

Lemma readHeader_0_inv u r c (f' : File) c' :
  readHeader W (mkFile u r) c = Some (0, f', c') →
  ∃ riffLen g,
    u = chunk_bytes riffLen ++ g
    ∧ readHeader_fmt W (mkFile g (r + 12)) c = Some (0, f', c').
Proof.
  intros E.
  destruct (decide (length u < 12)%nat) as [Hshort|Hlong].
  { by rewrite readHeader_short in E. }
  rewrite <- (take_drop 12 u) in E.
  set (cb := take 12 u) in *.
  assert (length cb = 12%nat) as Hcb by (subst cb; rewrite length_take; lia).
  rewrite readHeader_read in E by done.
  destruct (Z.eqb_spec (memcmp (hdr_id (chunk_hdr (chunk_of cb)))
                          (_ids riff) 4) 0) as [Hriff|Hriff]; [|done].
  destruct (Z.eqb_spec (memcmp (chunk_fmt (chunk_of cb)) (_ids wave) 4) 0)
    as [Hwave|Hwave]; [|done].
  cbn [andb] in E.
  apply memcmp_4_eq in Hriff; [|by apply length_field; lia|done].
  apply memcmp_4_eq in Hwave; [|by apply length_field; lia|done].
  exists (hdr_len (chunk_hdr (chunk_of cb))), (drop 12 u).
  split; [|done].
  rewrite chunk_bytes_chunk_of by done. subst cb. by rewrite take_drop.
Qed.

End Inversion.

(** [readHeader] returns 0 only on a header of the accepted profile: the
    file then starts with "RIFF", four bytes, "WAVE", "fmt " with a length
    [L >= 16], a descriptor with audio format 1, one channel, 8 bits per
    sample and the configured rate, [(L - 16) mod 65536] further bytes and
    "data" with a length [N]; the file is left right behind this header,
    and the sample count is [N] converted to [sampleCnt_t]. *)
Theorem readHeader_0_only_on_profile (W : Z) (f : File) (c : Z) (f' : File)
    (c' : Z) :
  readHeader W f c = Some (0, f', c') →
  ∃ riffLen L desc pad N,
    16 <= L < 2 ^ 32
    ∧ 0 <= N < 2 ^ 32
    ∧ length desc = 16%nat
    ∧ length pad = Z.to_nat (to_uint16 (L - 16))
    ∧ audioFormat (fmtValue_of desc) = 1
    ∧ numChannels (fmtValue_of desc) = 1
    ∧ bitsPerSample (fmtValue_of desc) = 8
    ∧ sampleRate (fmtValue_of desc) = SAMPLE_RATE
    ∧ unread f = chunk_bytes riffLen ++ hdr_bytes (_ids fmt) L ++ desc ++ pad
                 ++ hdr_bytes (_ids data) N ++ unread f'
    ∧ reads f' = (reads f + 44 + length pad)%nat
    ∧ c' = to_sampleCnt W N.
Proof.
  destruct f as [u r]. intros E.
  apply readHeader_0_inv in E as (riffLen & g & -> & E).
  apply readHeader_fmt_0_inv
    in E as (L & desc & pad & g' & HL & Hdesc & Hpad & Hok & -> & E).
  apply readHeader_data_0_inv in E as (N & HN & -> & Hreads & ->).
  apply profile_ok_spec in Hok as (Haf & Hnc & Hbps & Hsr).
  exists riffLen, L, desc, pad, N. cbn [unread reads].
  repeat (split; [done|]). split; [|done]. rewrite Hreads. lia.
Qed.

Lemma readHeader_0_only_on_profile_witness :
  ∃ riffLen L desc pad N,
    16 <= L < 2 ^ 32
    ∧ 0 <= N < 2 ^ 32
    ∧ length desc = 16%nat
    ∧ length pad = Z.to_nat (to_uint16 (L - 16))
    ∧ audioFormat (fmtValue_of desc) = 1
    ∧ numChannels (fmtValue_of desc) = 1
    ∧ bitsPerSample (fmtValue_of desc) = 8
    ∧ sampleRate (fmtValue_of desc) = SAMPLE_RATE
    ∧ header_bytes 39 16 (profile SAMPLE_RATE 1) [] 3 ++ [Byte.x00]
      = chunk_bytes riffLen ++ hdr_bytes (_ids fmt) L ++ desc ++ pad
        ++ hdr_bytes (_ids data) N ++ [Byte.x00]
    ∧ 44%nat = (0 + 44 + length pad)%nat
    ∧ 3 = to_sampleCnt 16 N.
Proof.
  apply (readHeader_0_only_on_profile 16
           (open (header_bytes 39 16 (profile SAMPLE_RATE 1) [] 3
                  ++ [Byte.x00]))
           0 (mkFile [Byte.x00] 44) 3).
  reflexivity.
Defined.

(** ** Which files get 1 and which get 2 *)

Lemma field_take_drop (u : list byte) (off k o n : nat) :
  (o + n <= k)%nat →
  field (take k (drop off u)) o n = field u (off + o) n.
Proof.
  intros H. unfold field.
  rewrite skipn_firstn_comm, take_take, Nat.min_l by lia.
  by rewrite drop_drop.
Qed.

Lemma field_take (u : list byte) (k o n : nat) :
  (o + n <= k)%nat → field (take k u) o n = field u o n.
Proof.
  intros H. rewrite <- (drop_0 u) at 1.
  by rewrite field_take_drop.
Qed.

Section Codes.

Variable W : Z.
Implicit Types (u g : list byte) (r : nat) (c : Z).

(** Once the id "fmt " has been found, 2 is no longer returned. *)
Lemma readHeader_fmt_after_id (hb g : list byte) r c :
  length hb = 8%nat →
  memcmp (hdr_id (hdr_of hb)) (_ids fmt) 4 = 0 →
  ∃ code f' c',
    readHeader_fmt W (mkFile (hb ++ g) r) c = Some (code, f', c')
    ∧ (code = 0 ∨ code = 3 ∨ code = 4 ∨ code = 5).
Proof.
  intros Hhb Hid.
  destruct (Z_lt_dec (hdr_len (hdr_of hb)) 16) as [Hlen|Hlen];
    [rewrite readHeader_fmt_len by done; eexists _, _, _; split; eauto|].
  destruct (decide (length g < 16)%nat) as [Hg|Hg];
    [rewrite readHeader_fmt_value_short by (done || lia);
     eexists _, _, _; split; eauto|].
  rewrite <- (take_drop 16 g).
  set (n := Z.to_nat (to_uint16 (hdr_len (hdr_of hb) - 16))).
  destruct (decide (length (drop 16 g) < n)%nat) as [Hg2|Hg2];
    [rewrite readHeader_fmt_pad_short
       by (done || lia || (rewrite length_take; lia));
     eexists _, _, _; split; eauto|].
  rewrite <- (take_drop n (drop 16 g)).
  rewrite readHeader_fmt_read
    by (done || lia || (rewrite length_take; lia)).
  destruct (profile_ok _); [|eexists _, _, _; split; eauto].
  destruct (readHeader_data_frame W
              (mkFile (drop n (drop 16 g))
                 (r + 8 + 16 + length (take n (drop 16 g)))) c)
    as (code & f' & c' & E & Hcode & _).
  exists code, f', c'. split; [done|]. destruct Hcode as [->| ->]; auto.
Qed.

Lemma readHeader_fmt_2_iff u r c :
  (∃ f' c', readHeader_fmt W (mkFile u r) c = Some (2, f', c'))
  ↔ ((length u < 8)%nat ∨ field u 0 4 ≠ _ids fmt).
Proof.
  destruct (decide (length u < 8)%nat) as [Hshort|Hlong].
  { rewrite readHeader_fmt_short by done. split; [by left|by eexists _, _]. }
  replace (mkFile u r) with (mkFile (take 8 u ++ drop 8 u) r)
    by (by rewrite take_drop).
  assert (length (take 8 u) = 8%nat) as Hhb by (rewrite length_take; lia).
  assert (hdr_id (hdr_of (take 8 u)) = field u 0 4) as Hfield
    by (apply field_take; lia).
  destruct (Z.eq_dec (memcmp (hdr_id (hdr_of (take 8 u))) (_ids fmt) 4) 0)
    as [Hid|Hid].
  - destruct (readHeader_fmt_after_id (take 8 u) (drop 8 u) r c Hhb Hid)
      as (code & f' & c' & -> & Hcode).
    apply memcmp_4_eq in Hid; [|by apply length_field; lia|done].
    split.
    + intros (f0 & c0 & [= -> _ _]). lia.
    + intros [?|Hne]; [lia|]. by rewrite <- Hfield in Hne.
  - rewrite readHeader_fmt_id by done.
    split; [|by eexists _, _]. intros _. right.
    rewrite <- Hfield. intros Heq. apply Hid. rewrite Heq.
    apply memcmp_refl.
Qed.

End Codes.

(** [readHeader] returns 1 exactly on the files that have fewer than
    twelve bytes or do not have "RIFF" in bytes 0 to 3 and "WAVE" in bytes
    8 to 11; bytes 4 to 7 have no say. *)
Theorem readHeader_1_iff (W : Z) (f : File) (c : Z) :
  (∃ f' c', readHeader W f c = Some (1, f', c'))
  ↔ ((length (unread f) < 12)%nat
     ∨ field (unread f) 0 4 ≠ _ids riff
     ∨ field (unread f) 8 4 ≠ _ids wave).
Proof.
  destruct f as [u r]. cbn [unread].
  destruct (decide (length u < 12)%nat) as [Hshort|Hlong].
  { rewrite readHeader_short by done. split; [by left|by eexists _, _]. }
  replace (mkFile u r) with (mkFile (take 12 u ++ drop 12 u) r)
    by (by rewrite take_drop).
  set (cb := take 12 u).
  assert (length cb = 12%nat) as Hcb by (subst cb; rewrite length_take; lia).
  assert (hdr_id (chunk_hdr (chunk_of cb)) = field u 0 4) as Hf0
    by (apply field_take; lia).
  assert (chunk_fmt (chunk_of cb) = field u 8 4) as Hf8
    by (apply field_take; lia).
  rewrite readHeader_read by done.
  destruct (Z.eqb_spec (memcmp (hdr_id (chunk_hdr (chunk_of cb)))
                          (_ids riff) 4) 0) as [Hriff|Hriff];
    [destruct (Z.eqb_spec (memcmp (chunk_fmt (chunk_of cb)) (_ids wave) 4) 0)
       as [Hwave|Hwave]|]; cbn [andb].
  - apply memcmp_4_eq in Hriff; [|by apply length_field; lia|done].
    apply memcmp_4_eq in Hwave; [|by apply length_field; lia|done].
    destruct (readHeader_fmt_frame W (mkFile (drop 12 u) (r + 12)) c)
      as (code & f' & c' & -> & Hcode & _).
    split.
    + intros (f0 & c0 & [= -> _ _]). lia.
    + intros [?|[Hne|Hne]]; [lia| |]; congruence.
  - split; [|by eexists _, _]. intros _. right. right.
    rewrite <- Hf8. intros Heq. apply Hwave. rewrite Heq. apply memcmp_refl.
  - split; [|by eexists _, _]. intros _. right. left.
    rewrite <- Hf0. intros Heq. apply Hriff. rewrite Heq. apply memcmp_refl.
Qed.

(** [readHeader] returns 2 exactly on the files that start with a main
    chunk ("RIFF", four bytes, "WAVE") and then have fewer than eight bytes
    or something else than "fmt " in bytes 12 to 15; the length in bytes 16
    to 19 has no say. *)
Theorem readHeader_2_iff (W : Z) (f : File) (c : Z) :
  (∃ f' c', readHeader W f c = Some (2, f', c'))
  ↔ ((12 <= length (unread f))%nat
     ∧ field (unread f) 0 4 = _ids riff
     ∧ field (unread f) 8 4 = _ids wave
     ∧ ((length (unread f) < 20)%nat ∨ field (unread f) 12 4 ≠ _ids fmt)).
Proof.
  destruct f as [u r]. cbn [unread].
  destruct (decide (length u < 12)%nat) as [Hshort|Hlong].
  { rewrite readHeader_short by done.
    split; [by intros (? & ? & [=])|lia]. }
  assert (field u 0 4 = _ids riff ∧ field u 8 4 = _ids wave
          ∨ ¬ (field u 0 4 = _ids riff ∧ field u 8 4 = _ids wave)) as Htags.
  { destruct (List.list_eq_dec Byte.byte_eq_dec (field u 0 4) (_ids riff));
      [|tauto].
    destruct (List.list_eq_dec Byte.byte_eq_dec (field u 8 4) (_ids wave));
      tauto. }
  destruct Htags as [[Hriff Hwave]|Hbad].
  - replace (mkFile u r) with (mkFile (take 12 u ++ drop 12 u) r)
      by (by rewrite take_drop).
    assert (length (take 12 u) = 12%nat) as Hcb by (rewrite length_take; lia).
    rewrite readHeader_read by done.
    unfold chunk_of, hdr_of. cbn [chunk_hdr chunk_fmt hdr_id].
    rewrite !field_take, Hriff, Hwave, !memcmp_refl by lia. cbn [Z.eqb andb].
    rewrite readHeader_fmt_2_iff.
    change (field (drop 12 u) 0 4) with (field u 12 4).
    rewrite length_drop. split.
    + intros [H|H]; (split; [lia|]); (split; [done|]); (split; [done|]);
        [left; lia|by right].
    + intros (_ & _ & _ & [H|H]); [left; lia|by right].
  - split; [|tauto]. intros (f' & c' & E).
    replace (mkFile u r) with (mkFile (take 12 u ++ drop 12 u) r) in E
      by (by rewrite take_drop).
    assert (length (take 12 u) = 12%nat) as Hcb by (rewrite length_take; lia).
    rewrite readHeader_read in E by done.
    unfold chunk_of, hdr_of in E. cbn [chunk_hdr chunk_fmt hdr_id] in E.
    rewrite !field_take in E by lia.
    destruct (Z.eqb_spec (memcmp (field u 0 4) (_ids riff) 4) 0)
      as [Hriff|_]; [|done].
    destruct (Z.eqb_spec (memcmp (field u 8 4) (_ids wave) 4) 0)
      as [Hwave|_]; [|done].
    apply memcmp_4_eq in Hriff; [|by apply length_field; lia|done].
    apply memcmp_4_eq in Hwave; [|by apply length_field; lia|done].
    tauto.
Qed.

(** A chunk that is not "data" right after the [fmt ] chunk is not skipped:
    whatever its id and length (a "LIST" chunk, say), [readHeader] returns
    5 with the file behind its eight header bytes and the sample count
    untouched. *)
Theorem readHeader_unknown_chunk (W riffLen L br ba : Z)
    (pad hb g : list byte) (r : nat) (c : Z) :
  16 <= L <= 65551 →
  length pad = Z.to_nat (L - 16) →
  length hb = 8%nat →
  hdr_id (hdr_of hb) ≠ _ids data →
  readHeader W
    (mkFile (chunk_bytes riffLen ++ hdr_bytes (_ids fmt) L
             ++ fmtValue_bytes (profile br ba) ++ pad ++ hb ++ g) r) c
  = Some (5, mkFile g (r + 28 + Z.to_nat L), c).
Proof.
  intros HL Hpad Hhb Hid.
  rewrite readHeader_chunk, readHeader_fmt_chunk;
    [|lia|done|by rewrite to_uint16_small by lia].
  replace (profile_ok (fmtValue_of (fmtValue_bytes (profile br ba))))
    with true
    by (symmetry; apply profile_ok_spec, fmtValue_of_profile).
  rewrite readHeader_data_read by done.
  destruct (Z.eqb_spec (memcmp (hdr_id (hdr_of hb)) (_ids data) 4) 0)
    as [Heq|_].
  - apply memcmp_4_eq in Heq; [done|by apply length_field; lia|done].
  - rewrite Hpad.
    by replace (r + 12 + 8 + 16 + Z.to_nat (L - 16) + 8)%nat
      with (r + 28 + Z.to_nat L)%nat by lia.
Qed.

Lemma readHeader_unknown_chunk_witness :
  readHeader 16
    (mkFile (chunk_bytes 0 ++ hdr_bytes (_ids fmt) 16
             ++ fmtValue_bytes (profile 9615 1) ++ []
             ++ hdr_bytes [Byte.x4c; Byte.x49; Byte.x53; Byte.x54] 4
             ++ [Byte.x00]) 0) 7
  = Some (5, mkFile [Byte.x00] 44, 7).
Proof.
  apply (readHeader_unknown_chunk 16 0 16 9615 1 []
           (hdr_bytes [Byte.x4c; Byte.x49; Byte.x53; Byte.x54] 4)
           [Byte.x00] 0 7);
    [lia | reflexivity | reflexivity | by vm_compute].
Defined.

Lemma readHeader_fmt_too_short_witness :
  readHeader 16
    (mkFile (chunk_bytes 0 ++ hdr_bytes (_ids fmt) 14 ++ [Byte.x01]) 0) 7
  = Some (3, mkFile [Byte.x01] 20, 7).
Proof. apply (readHeader_fmt_too_short 16 0 14 [Byte.x01] 0 7). lia. Defined.

(** * The read cursor *)

Lemma advanced_refl (f : File) : advanced f f.
Proof. split; [done|]. by rewrite Nat.sub_diag, drop_0. Qed.

Lemma advanced_trans (f1 f2 f3 : File) :
  advanced f1 f2 → advanced f2 f3 → advanced f1 f3.
Proof.
  intros [H12 E12] [H23 E23]. split; [lia|].
  rewrite E23, E12, drop_drop. f_equal. lia.
Qed.

Lemma _readBytes_loop_advanced (n : nat) : ∀ f offset buf m r f' m',
  _readBytes_loop n f offset buf m = Some (r, f', m') →
  advanced f f' ∧ (reads f' <= reads f + n)%nat.
Proof.
  induction n as [|n IH]; intros [u k] offset buf m r f' m' E.
  - injection E as _ <- _. split; [apply advanced_refl|cbn; lia].
  - cbn [_readBytes_loop] in E. destruct u as [|b u].
    + rewrite File_read_eof in E. cbn in E. injection E as _ <- _.
      split; [|cbn; lia]. split; [cbn; lia|]. cbn [unread]. by rewrite drop_nil.
    + rewrite File_read_cons, byte_unsigned_nonneg in E.
      assert (advanced (mkFile (b :: u) k) (mkFile u (S k))) as Hstep.
      { split; [cbn; lia|]. cbn [unread reads].
        by replace (S k - k)%nat with 1%nat by lia. }
      assert (∃ buf' m0, _readBytes_loop n (mkFile u (S k)) offset buf' m0
                         = Some (r, f', m')) as (buf' & m0 & E').
      { destruct buf as [p|]; [|by eexists _, _].
        destruct (store m p _) as [m0|]; [|done]. by eexists _, _. }
      destruct (IH _ _ _ _ _ _ _ E') as [Hadv Hle]. cbn [reads] in Hle.
      split; [by eapply advanced_trans|cbn [reads]; lia].
Qed.

Lemma _readBytes_advanced (f : File) (len offset : Z) (data : option nat)
    (m : list byte) (r : Z) (f' : File) (m' : list byte) :
  _readBytes f len offset data m = Some (r, f', m') →
  advanced f f' ∧ (reads f' <= reads f + Z.to_nat len)%nat.
Proof. apply _readBytes_loop_advanced. Qed.

(** Whatever [_readBytes] returns, it has called [read()] at most [len]
    times and only moved forward: what is unread afterwards is what was
    unread before without as many leading bytes as calls were made. *)
Theorem readBytes_cursor (f : File) (len offset : Z) (data : option nat)
    (m : list byte) (r : Z) (f' : File) (m' : list byte) :
  _readBytes f len offset data m = Some (r, f', m') →
  advanced f f' ∧ (reads f' <= reads f + Z.to_nat len)%nat.
Proof. apply _readBytes_advanced. Qed.

Lemma readBytes_cursor_witness :
  advanced (open [Byte.x01; Byte.x02; Byte.x03]) (mkFile [Byte.x03] 2)
  ∧ (2 <= 0 + Z.to_nat 2)%nat.
Proof.
  apply (readBytes_cursor (open [Byte.x01; Byte.x02; Byte.x03]) 2 0 None []
           0 (mkFile [Byte.x03] 2) []).
  reflexivity.
Defined.

Section Cursor.

Variable W : Z.
Implicit Types (f : File) (c : Z).

Lemma readHeader_data_cursor f c r (f' : File) c' :
  readHeader_data W f c = Some (r, f', c') →
  advanced f f' ∧ (reads f' <= reads f + 8)%nat.
Proof.
  unfold readHeader_data. intros E.
  destruct (_readBytes f sizeof_hdr 0 (Some 0%nat) (uninit 8))
    as [[[r1 f1] m1]|] eqn:E1; [|done].
  apply _readBytes_advanced in E1. cbn [mbind option_bind] in E.
  destruct (_ || _); by injection E as _ <- _.
Qed.

Lemma to_uint16_to_nat_le (z : Z) :
  (Z.to_nat (to_uint16 z) <= Z.to_nat 65535)%nat.
Proof.
  unfold to_uint16. pose proof (Z.mod_pos_bound z (2 ^ 16) eq_refl). lia.
Qed.

Lemma readHeader_fmt_cursor f c r (f' : File) c' :
  readHeader_fmt W f c = Some (r, f', c') →
  advanced f f' ∧ (reads f' <= reads f + 32 + Z.to_nat 65535)%nat.
Proof.
  unfold readHeader_fmt. intros E.
  destruct (_readBytes f sizeof_hdr 0 (Some 0%nat) (uninit 8))
    as [[[r1 f1] m1]|] eqn:E1; [|done].
  apply _readBytes_advanced in E1 as [Ha1 Hb1]. cbn [mbind option_bind] in E.
  unfold sizeof_hdr in Hb1.
  destruct (_ || _); [injection E as _ <- _; split; [done|lia]|].
  destruct (_ <? _); [injection E as _ <- _; split; [done|lia]|].
  destruct (_readBytes f1 sizeof_fmtValue 0 (Some 0%nat) (uninit 16))
    as [[[r2 f2] m2]|] eqn:E2; [|done].
  apply _readBytes_advanced in E2 as [Ha2 Hb2]. cbn [mbind option_bind] in E.
  unfold sizeof_fmtValue in Hb2.
  pose proof (advanced_trans _ _ _ Ha1 Ha2) as Ha12.
  destruct (negb (r2 =? 0)); [injection E as _ <- _; split; [done|lia]|].
  destruct (_readBytes f2 _ 0 None []) as [[[r3 f3] m3]|] eqn:E3; [|done].
  apply _readBytes_advanced in E3 as [Ha3 Hb3]. cbn [mbind option_bind] in E.
  pose proof (advanced_trans _ _ _ Ha12 Ha3) as Ha123.
  pose proof (to_uint16_to_nat_le (hdr_len (hdr_of m1) - sizeof_fmtValue)).
  destruct (negb (r3 =? 0)); [injection E as _ <- _; split; [done|lia]|].
  destruct (_ || _); [injection E as _ <- _; split; [done|lia]|].
  apply readHeader_data_cursor in E as [Ha4 Hb4].
  split; [by eapply advanced_trans|lia].
Qed.

End Cursor.

(** Whatever [readHeader] returns, it has only moved forward in the file,
    leaving unread what was unread without as many leading bytes as it
    made calls of [read()], and it has made at most 65579 calls, whatever
    the file holds. *)
Theorem readHeader_cursor (W : Z) (f : File) (c r : Z) (f' : File) (c' : Z) :
  readHeader W f c = Some (r, f', c') →
  advanced f f' ∧ Z.of_nat (reads f') <= Z.of_nat (reads f) + 65579.
Proof.
  unfold readHeader. intros E.
  destruct (_readBytes f sizeof_chunk 0 (Some 0%nat) (uninit 12))
    as [[[r1 f1] m1]|] eqn:E1; [|done].
  apply _readBytes_advanced in E1 as [Ha1 Hb1]. cbn [mbind option_bind] in E.
  unfold sizeof_chunk in Hb1.
  destruct (_ || _); [injection E as _ <- _; split; [done|lia]|].
  apply readHeader_fmt_cursor in E as [Ha2 Hb2].
  split; [by eapply advanced_trans|lia].
Qed.

Lemma readHeader_cursor_witness :
  advanced (open chunk_RIFX) (mkFile [] 12)
  ∧ Z.of_nat 12 <= Z.of_nat 0 + 65579.
Proof.
  apply (readHeader_cursor 16 (open chunk_RIFX) 0 1 (mkFile [] 12) 0).
  reflexivity.
Defined.

(** * Header and samples together *)

(** A container of the accepted profile with the sample bytes [ds], fewer
    than 65536 of them and no more than [sampleCnt_t] can count:
    [readHeader] returns 0 with the number of samples, and [readSamples]
    with that number then returns 0, leaves the file behind the samples and
    fills the buffer with the samples, each byte minus 128. *)
Theorem wave_decodes (W riffLen L br ba : Z) (pad ds rest samples : list byte)
    (c : Z) :
  16 <= L <= 65551 →
  length pad = Z.to_nat (L - 16) →
  Z.of_nat (length ds) < 2 ^ 16 →
  Z.of_nat (length ds) < 2 ^ W →
  length samples = length ds →
  let N := Z.of_nat (length ds) in
  let f1 := mkFile (ds ++ rest) (28 + Z.to_nat L) in
  readHeader W
    (open (header_bytes riffLen L (profile br ba) pad N ++ ds ++ rest)) c
  = Some (0, f1, N)
  ∧ ∃ samples',
      readSamples f1 N samples
      = Some (0, mkFile rest (28 + Z.to_nat L + length ds), samples')
      ∧ int8 <$> samples' = (λ b, byte.unsigned b - 128) <$> ds.
Proof.
  intros HL Hpad H16 HW Hbuf N f1. split.
  - unfold open.
    rewrite readHeader_accepts;
      [|lia|by rewrite to_uint16_small by lia|lia].
    unfold to_sampleCnt. rewrite Z.mod_small, Hpad by lia.
    by replace (0 + 44 + Z.to_nat (L - 16))%nat
      with (28 + Z.to_nat L)%nat by lia.
  - exists ((λ b, to_char (byte.unsigned b + SCHAR_MIN)) <$> ds). split.
    + unfold readSamples, _readBytes. rewrite to_uint16_small by lia.
      subst N f1. rewrite Nat2Z.id.
      rewrite _readBytes_loop_ok; cbn [unread reads fits];
        [|rewrite length_app; lia|lia].
      rewrite take_app_length, drop_app_length. unfold written.
      rewrite take_0, drop_ge by (cbn [Nat.add]; lia).
      by rewrite app_nil_l, app_nil_r.
    + rewrite <- list_fmap_compose. apply list_fmap_ext.
      intros i b _. apply int8_bias.
Qed.

Lemma wave_decodes_witness :
  readHeader 16
    (open (header_bytes 39 16 (profile SAMPLE_RATE 1) [] 3
           ++ [Byte.x00; Byte.x80; Byte.xff] ++ [])) 0
  = Some (0, mkFile ([Byte.x00; Byte.x80; Byte.xff] ++ []) 44, 3)
  ∧ ∃ samples',
      readSamples (mkFile ([Byte.x00; Byte.x80; Byte.xff] ++ []) 44) 3
        (uninit 3)
      = Some (0, mkFile [] 47, samples')
      ∧ int8 <$> samples'
        = (λ b, byte.unsigned b - 128) <$> [Byte.x00; Byte.x80; Byte.xff].
Proof.
  apply (wave_decodes 16 39 16 SAMPLE_RATE 1 []
           [Byte.x00; Byte.x80; Byte.xff] [] (uninit 3) 0);
    [lia | reflexivity | cbn; lia | cbn; lia | reflexivity].
Defined.
